(** * The Splunk HEC receiver, the raw-value conversion and the receiver lifecycle

    A shallow embedding of [receiver/splunkhecreceiver/receiver.go]
    ([handleReq], [failRequest], [initJSONResponse], [Shutdown]) together
    with the parts of the data model the handler touches, followed by the
    properties of the request handler.

    Go values are embedded as follows: [int] and [int64] as [Z], [[]byte] and
    [string] as [string], [error] as [option error] ([None] is [nil]),
    [map[string][]string] as a [gmap], slices as lists.  The effects of the
    handler (response writes, span operations, the consumer call, log
    lines) are threaded through an explicit [World]. *)

From Stdlib Require Import ZArith String Ascii List Bool Lia.
From stdpp Require Import base option list gmap strings.
Import ListNotations.

Set Warnings "-register-all".

Local Open Scope string_scope.
Local Open Scope list_scope.
Local Open Scope Z_scope.

(** Go's [error], observed through [err.Error()]. *)
Definition error := string.

(** ** Dynamic values ([interface{}]) *)

(** The dynamic types a Go [interface{}] is switched over. *)
Inductive IntKind := KInt | KInt8 | KInt16 | KInt32 | KInt64.
Inductive UintKind := KUint | KUint8 | KUint16 | KUint32 | KUint64.
Inductive FloatKind := KFloat32 | KFloat64.

(** An untyped value.  Floats carry their IEEE bit pattern; [ROther] stands
    for a value of any other dynamic type (a pointer to a struct, a typed
    slice, ...) and records the type's name. *)
Inductive Raw :=
| RNil
| RString (s : string)
| RInt (k : IntKind) (n : Z)
| RUint (k : UintKind) (n : Z)
| RFloat (k : FloatKind) (bits : Z)
| RBool (b : bool)
| RBytes (bs : string)
| RMap (kvs : list (string * Raw))
| RSlice (vs : list Raw)
| ROther (goType : string).

(** ** encoding/json: marshalling of a string *)

Module json.

Definition hex (n : N) : ascii :=
  if (n <? 10)%N then ascii_of_N (48 + n) else ascii_of_N (87 + n).

(** One ASCII byte of a string as [json.Marshal] writes it (HTML escaping
    on): the quote and the backslash are escaped with a backslash, newline,
    carriage return and tab have short forms, the other control bytes and
    the three HTML bytes are written as a [u00XX] escape; every other ASCII
    byte is copied.  (Backspace and form feed are among the control bytes
    written as [u00XX]; later releases of encoding/json give them a short
    form.) *)
Definition encodeByte (c : ascii) : string :=
  let n := N_of_ascii c in
  let bs := "092"%char in
  if (n =? 34)%N || (n =? 92)%N then String bs (String c "")
  else if (n =? 10)%N then String bs "n"
  else if (n =? 13)%N then String bs "r"
  else if (n =? 9)%N then String bs "t"
  else if (n <? 32)%N || (n =? 60)%N || (n =? 62)%N || (n =? 38)%N
    then String bs ("u00" +:+ String (hex (N.shiftr n 4)) (String (hex (N.land n 15)) ""))
  else String c "".

(** The first bytes of a string as numbers, at most [n] of them. *)
Fixpoint leadingBytes (n : nat) (s : string) : list N :=
  match n, s with
  | S k, String c rest => N_of_ascii c :: leadingBytes k rest
  | _, _ => []
  end.

Definition between (lo hi n : N) : bool := (lo <=? n)%N && (n <=? hi)%N.

(** [utf8.DecodeRuneInString] on a string whose first byte is not ASCII:
    the number of bytes of the rune that starts the string, and 0 when no
    valid encoding starts there (the rune error of width 1). *)
Definition runeSize (s : string) : nat :=
  match leadingBytes 4 s with
  | b0 :: b1 :: more =>
      if between 194 223 b0 then (if between 128 191 b1 then 2 else 0)%nat
      else if between 224 239 b0 then
        if between (if (b0 =? 224)%N then 160 else 128)
                   (if (b0 =? 237)%N then 159 else 191) b1
        then match more with
             | b2 :: _ => if between 128 191 b2 then 3%nat else 0%nat
             | [] => 0%nat
             end
        else 0%nat
      else if between 240 244 b0 then
        if between (if (b0 =? 240)%N then 144 else 128)
                   (if (b0 =? 244)%N then 143 else 191) b1
        then match more with
             | b2 :: b3 :: _ =>
                 if between 128 191 b2 && between 128 191 b3 then 4%nat else 0%nat
             | _ => 0%nat
             end
        else 0%nat
      else 0%nat
  | _ => 0%nat
  end.

(** The last hexadecimal digit of U+2028 and U+2029 when one of them starts
    the string. *)
Definition lineSeparator (s : string) : option ascii :=
  match leadingBytes 3 s with
  | [226; 128; 168]%N => Some "8"%char
  | [226; 128; 169]%N => Some "9"%char
  | _ => None
  end.

(** The string as [json.Marshal] writes it between the quotes, [skip] bytes
    of a rune already written being passed over: ASCII bytes by
    [encodeByte]; a byte that starts no valid UTF-8 encoding as the escape
    of U+FFFD; U+2028 and U+2029 as escapes; every other rune copied. *)
Fixpoint encodeFrom (skip : nat) (s : string) : string :=
  match s with
  | EmptyString => ""
  | String c rest =>
      match skip with
      | S k => encodeFrom k rest
      | O =>
          if (N_of_ascii c <? 128)%N then encodeByte c +:+ encodeFrom 0 rest
          else
            match runeSize s with
            | O => String "092"%char "ufffd" +:+ encodeFrom 0 rest
            | S k =>
                match lineSeparator s with
                | Some digit =>
                    String "092"%char ("u202" +:+ String digit "") +:+ encodeFrom k rest
                | None => substring 0 (S k) s +:+ encodeFrom k rest
                end
            end
      end
  end.

Definition encodeBytes (s : string) : string := encodeFrom 0 s.

(** [json.Marshal(s)] for a string [s]; it never fails on a string. *)
Definition Marshal (s : string) : string * option error :=
  (String "034"%char (encodeBytes s +:+ String "034"%char ""), None).

End json.

(** ** net/http *)

Module http.

Definition MethodPost : string := "POST".
Definition StatusOK : Z := 200.
Definition StatusAccepted : Z := 202.
Definition StatusBadRequest : Z := 400.
Definition StatusUnsupportedMediaType : Z := 415.
Definition StatusInternalServerError : Z := 500.

(** [http.Header], keyed by canonical header names. *)
Definition Header_Get (h : gmap string (list string)) (key : string) : string :=
  match h !! key with
  | Some (v :: _) => v
  | _ => ""
  end.

(** [http.ResponseWriter] as the server of net/http implements it: the
    status line once it is sent, the byte slices [Write] has accepted so
    far, and the error [Write] returns for bytes it accepts ([None] on a
    healthy connection).  The handler sets no Content-Length header, so
    [Write] never refuses bytes for exceeding it. *)
Record ResponseWriter := {
  statusCode : option Z;
  written : list string;
  connErr : option error
}.

(** [checkWriteHeaderCode]: the codes [WriteHeader] does not panic on. *)
Definition checkWriteHeaderCode (code : Z) : bool := (100 <=? code) && (code <=? 999).

(** [bodyAllowedForStatus]. *)
Definition bodyAllowedForStatus (status : Z) : bool :=
  negb (((100 <=? status) && (status <=? 199)) || (status =? 204) || (status =? 304)).

Definition ErrBodyNotAllowed : error :=
  "http: request method or response status code does not allow body".

(** [WriteHeader]: once a status line is sent, later calls are ignored;
    otherwise it panics on a code outside 100..999, which is [None], and
    sends the status line.  The codes the receiver passes are 202, 400, 415
    and 500. *)
Definition WriteHeader (w : ResponseWriter) (code : Z) : option ResponseWriter :=
  match statusCode w with
  | Some _ => Some w
  | None =>
      if checkWriteHeaderCode code
      then Some {| statusCode := Some code; written := written w; connErr := connErr w |}
      else None
  end.

(** [Write]: sends [StatusOK] first when no header was written; an empty
    slice is written without error; a status that allows no body refuses
    the bytes with [ErrBodyNotAllowed]; otherwise the bytes go to the
    connection, whose error is returned. *)
Definition Write (w : ResponseWriter) (b : string) : ResponseWriter * option error :=
  let w' :=
    match statusCode w with
    | Some _ => w
    | None => {| statusCode := Some StatusOK; written := written w; connErr := connErr w |}
    end in
  if (String.length b =? 0)%nat then (w', None)
  else if bodyAllowedForStatus (default StatusOK (statusCode w')) then
    ({| statusCode := statusCode w'; written := written w' ++ [b]; connErr := connErr w' |},
     connErr w')
  else (w', Some ErrBodyNotAllowed).

End http.

(** ** go.opencensus.io/trace *)

Module trace.

Inductive StatusCode := StatusCodeInvalidArgument | StatusCodeInternal.

Record Status := { Code : StatusCode; Message : string }.

End trace.

(** ** internal/common/splunk: the decoded event *)

(** [splunk.Event], with the fields of the wire format. *)
Record Event := {
  Time : option Z;
  Host : string;
  Source : string;
  SourceType : string;
  Index : string;
  EventBody : Raw;
  Fields : list (string * Raw)
}.

(** ** consumer/pdata: the log batch *)

Module pdata.

(** The attribute values the handler itself writes are strings. *)
Inductive AttributeValue := AttributeValueSTRING (s : string).

Record LogRecord := {
  Body : Raw;
  Attributes : list (string * Raw)
}.

Definition LogSlice := list LogRecord.

Record InstrumentationLibraryLogs := { ill_Logs : LogSlice }.

(** A resource is nil until [InitEmpty] is called on it. *)
Record Resource := {
  IsNil : bool;
  ResourceAttributes : gmap string AttributeValue
}.

Record ResourceLogs := {
  rl_Resource : Resource;
  rl_InstrumentationLibraryLogs : list InstrumentationLibraryLogs
}.

Record Logs := { ld_ResourceLogs : list ResourceLogs }.

Definition NewLogs : Logs := {| ld_ResourceLogs := [] |}.

Definition NewResource : Resource := {| IsNil := true; ResourceAttributes := ∅ |}.

Definition NewResourceLogs : ResourceLogs :=
  {| rl_Resource := NewResource; rl_InstrumentationLibraryLogs := [] |}.

Definition NewInstrumentationLibraryLogs : InstrumentationLibraryLogs := {| ill_Logs := [] |}.

(** [Resize(n)] of a slice wrapper: the first [n] elements are kept and new
    empty elements are appended up to length [n]. *)
Definition Resize {A} (fresh : A) (l : list A) (n : nat) : list A :=
  take n l ++ replicate (n - length l)%nat fresh.

(** [InitEmpty] on a resource. *)
Definition InitEmpty (r : Resource) : Resource :=
  {| IsNil := false; ResourceAttributes := ∅ |}.

(** [InsertString(k, v)]: adds the attribute when the key is absent. *)
Definition InsertString (m : gmap string AttributeValue) (k v : string)
  : gmap string AttributeValue :=
  match m !! k with
  | Some _ => m
  | None => <[k := AttributeValueSTRING v]> m
  end.

(** [src.MoveAndAppendTo(dest)]: the records of [src] are appended to
    [dest]. *)
Definition MoveAndAppendTo (src dest : LogSlice) : LogSlice := dest ++ src.

(** [LogRecordCount] of a batch. *)
Definition LogRecordCount (ld : Logs) : nat :=
  sum_list (map (fun rl => sum_list (map (fun ill => length (ill_Logs ill))
                                         (rl_InstrumentationLibraryLogs rl)))
                (ld_ResourceLogs ld)).

End pdata.

(** ** The receiver package: configuration, constants, request and world *)

(** [Config]: the fields the handler reads.  [TLSSetting] is [Some] when
    TLS is configured. *)
Record Config := {
  Name : string;
  Endpoint : string;
  TLSSetting : option string;
  AccessTokenPassthrough : bool
}.

(** Declarations of the repository that the handler uses and that are not
    part of the embedded files: the metric discriminant of [splunk.Event],
    the access-token header and attribute names of package [splunk] (the
    header name in canonical form) and the receiver's type string. *)
Class Externals := {
  IsMetric : Event -> bool;
  SplunkHECTokenHeader : string;
  SplunkHecTokenLabel : string;
  typeStr : string
}.

(** Modelled from the spec: [SplunkHecToLogData], the converter from decoded
    events to log records, which [handleReq] calls and which is not among
    the embedded files.  One log record per event, in the same order, the
    record's body set to the raw event body and its attributes set from the
    event's field mapping. *)
Definition eventToLogRecord (e : Event) : pdata.LogRecord :=
  {| pdata.Body := EventBody e; pdata.Attributes := Fields e |}.

(** Modelled from the spec: [SplunkHecToLogData] itself; the spec gives the
    assembler no failure, so the error it returns is [nil]. *)
Definition SplunkHecToLogData (events : list Event) : pdata.LogSlice * option error :=
  (map eventToLogRecord events, None).

Definition quote : string := String "034"%char "".

Definition responseOK : string := "OK".
Definition responseInvalidMethod : string :=
  "Only " +:+ quote +:+ "POST" +:+ quote +:+ " method is supported".
Definition responseInvalidContentType : string :=
  quote +:+ "Content-Type" +:+ quote +:+ " must be " +:+ quote +:+ "application/json" +:+ quote.
Definition responseInvalidEncoding : string :=
  quote +:+ "Content-Encoding" +:+ quote +:+ " must be " +:+ quote +:+ "gzip" +:+ quote +:+ " or empty".
Definition responseErrGzipReader : string := "Error on gzip body".
Definition responseErrUnmarshalBody : string := "Failed to unmarshal message body".
Definition responseErrNextConsumer : string := "Internal Server Error".
Definition responseErrUnsupportedMetricEvent : string := "Unsupported metric event".

Definition jsonContentType : string := "application/json".
Definition gzipEncoding : string := "gzip".
Definition httpContentTypeHeader : string := "Content-Type".
Definition httpContentEncodingHeader : string := "Content-Encoding".

(** [initJSONResponse]: the JSON encoding of a string.  The source panics on
    a marshalling error; [json.Marshal] has none on a string. *)
Definition initJSONResponse (s : string) : string :=
  let '(respBody, err) := json.Marshal s in
  match err with
  | Some _ => ""
  | None => respBody
  end.

Definition okRespBody : string := initJSONResponse responseOK.
Definition invalidMethodRespBody : string := initJSONResponse responseInvalidMethod.
Definition invalidContentRespBody : string := initJSONResponse responseInvalidContentType.
Definition invalidEncodingRespBody : string := initJSONResponse responseInvalidEncoding.
Definition errGzipReaderRespBody : string := initJSONResponse responseErrGzipReader.
Definition errUnmarshalBodyRespBody : string := initJSONResponse responseErrUnmarshalBody.
Definition errNextConsumerRespBody : string := initJSONResponse responseErrNextConsumer.
Definition errUnsupportedMetricEvent : string := initJSONResponse responseErrUnsupportedMetricEvent.

(** What one [dec.Decode(&msg)] returns: a decoded event or an error. *)
Inductive DecodeResult :=
| Decoded (msg : Event)
| DecodeErr (err : error).

(** A closing bracket or brace that stands outside any value. *)
Inductive Bracket := CloseBracket | CloseBrace.

(** What stands in [bodyReader] where the decoder looks for its next
    value: a piece that starts with another byte than a closing bracket or
    brace, with what [Decode] returns for it; a closing bracket or brace;
    or a failure of the reader before the next byte that is not white
    space. *)
Inductive StreamItem :=
| NextValue (d : DecodeResult)
| Closing (b : Bracket)
| ReadError (err : error).

(** The request body as the handler observes it: the error of
    [gzip.NewReader] on it ([None] when the gzip header is read), and the
    stream in [bodyReader] ([bodyReader] is the gzip reader when the
    request is gzip-encoded, the body itself otherwise).  The end of the
    list is the end of the input. *)
Record RequestBody := {
  NewReaderErr : option error;
  Stream : list StreamItem
}.

(** [dec.More()]: there is a next byte, read without error, and it is not
    a closing bracket or brace. *)
Definition More (s : list StreamItem) : bool :=
  match s with
  | NextValue _ :: _ => true
  | Closing _ :: _ | ReadError _ :: _ | [] => false
  end.

(** The values [Decode] is called on: those the decoder gets to while
    [dec.More()] holds, up to the end of the input, a stray closing bracket
    or brace, or a read error. *)
Fixpoint valuesOf (s : list StreamItem) : list DecodeResult :=
  match s with
  | NextValue d :: rest => d :: valuesOf rest
  | _ => []
  end.

Definition Values (b : RequestBody) : list DecodeResult := valuesOf (Stream b).

(** [http.Request]: [ContentLength] is the declared length, [-1] when it is
    unknown. *)
Record Request := {
  Method : string;
  Header : gmap string (list string);
  ContentLength : Z;
  Body : RequestBody
}.

(** Operations on the request span, in the order they are issued.
    [StartMetricsReceiveOp] starts the span; [EndMetricsReceiveOp] and [End]
    each end it. *)
Inductive SpanOp :=
| StartMetricsReceiveOp (receiver transport : string)
| EndMetricsReceiveOp (format : string) (numReceivedPoints numReceivedTimeSeries : Z)
                      (err : option error)
| AddAttributes (httpStatusCode : Z) (httpStatusText : string)
| SetStatus (status : trace.Status)
| End_.

Inductive LogEntry :=
| Warn (msg : string) (err : error) (receiver : string)
| Debug (msg : string) (http_status_code : Z) (m : string) (err : option error)
        (receiver : string).

(** Everything a request can change: the response, the span, the batches
    handed to the consumer and the log. *)
Record World := {
  resp : http.ResponseWriter;
  span : list SpanOp;
  consumed : list pdata.Logs;
  logged : list LogEntry
}.

(** [splunkReceiver]: the configuration and the next consumer, which maps a
    batch to the error [ConsumeLogs] returns for it. *)
Record splunkReceiver := {
  config : Config;
  logConsumer : pdata.Logs -> option error
}.

(** ** The state monad of the handler *)

(** A panic of the handler. *)
Inductive Panic := InvalidWriteHeaderCode (code : Z).

(** A computation returns a value or panics, and leaves a world either
    way. *)
Definition M (A : Type) : Type := World -> (A + Panic) * World.

#[export] Instance M_ret : MRet M := fun A a w => (inl a, w).
#[export] Instance M_bind : MBind M :=
  fun A B f m w =>
    match m w with
    | (inl a, w') => f a w'
    | (inr p, w') => (inr p, w')
    end.

Definition resp_WriteHeader (code : Z) : M unit := fun w =>
  match http.WriteHeader (resp w) code with
  | Some rw =>
      (inl tt, {| resp := rw; span := span w; consumed := consumed w; logged := logged w |})
  | None => (inr (InvalidWriteHeaderCode code), w)
  end.

Definition resp_Write (b : string) : M (option error) := fun w =>
  let '(rw, err) := http.Write (resp w) b in
  (inl err, {| resp := rw; span := span w; consumed := consumed w; logged := logged w |}).

Definition span_do (op : SpanOp) : M unit := fun w =>
  (inl tt, {| resp := resp w; span := span w ++ [op];
              consumed := consumed w; logged := logged w |}).

Definition logger_do (e : LogEntry) : M unit := fun w =>
  (inl tt, {| resp := resp w; span := span w; consumed := consumed w;
              logged := logged w ++ [e] |}).

Definition ConsumeLogs (r : splunkReceiver) (ld : pdata.Logs) : M (option error) := fun w =>
  (inl (logConsumer r ld),
   {| resp := resp w; span := span w; consumed := consumed w ++ [ld];
      logged := logged w |}).

(** ** [failRequest] and [handleReq] *)

Section Handler.
Context `{Externals}.

Definition failRequest (r : splunkReceiver) (httpStatusCode : Z) (jsonResponse : string)
    (err : option error) : M unit :=
  resp_WriteHeader httpStatusCode ;;
  (if (0 <? String.length jsonResponse)%nat then
     writeErr ← resp_Write jsonResponse;
     match writeErr with
     | Some we => logger_do (Warn "Error writing HTTP response message" we (Name (config r)))
     | None => mret tt
     end
   else mret tt) ;;
  let msg := jsonResponse in
  span_do (AddAttributes httpStatusCode msg) ;;
  let traceStatus := {| trace.Code := trace.StatusCodeInvalidArgument; trace.Message := "" |} in
  let traceStatus :=
    if decide (httpStatusCode = http.StatusInternalServerError)
    then {| trace.Code := trace.StatusCodeInternal; trace.Message := trace.Message traceStatus |}
    else traceStatus in
  let traceStatus :=
    match err with
    | Some e => {| trace.Code := trace.Code traceStatus; trace.Message := e |}
    | None => traceStatus
    end in
  span_do (SetStatus traceStatus) ;;
  span_do End_ ;;
  logger_do (Debug "Splunk HEC receiver request failed" httpStatusCode msg err
                   (Name (config r))).

(** The decoding loop of [handleReq], [for dec.More() { ... }].  It returns
    [None] when the request was failed inside the loop, and the number of
    messages with the events once [dec.More()] is false. *)
Fixpoint decodeLoop (r : splunkReceiver) (s : list StreamItem)
    (messagesReceived : Z) (events : list Event) : M (option (Z * list Event)) :=
  match s with
  | NextValue (DecodeErr err) :: _ =>
      failRequest r http.StatusBadRequest errUnmarshalBodyRespBody (Some err) ;;
      mret None
  | NextValue (Decoded msg) :: rest =>
      if IsMetric msg then
        failRequest r http.StatusBadRequest errUnsupportedMetricEvent None ;;
        mret None
      else
        decodeLoop r rest (messagesReceived + 1) (events ++ [msg])
  | Closing _ :: _ | ReadError _ :: _ | [] => mret (Some (messagesReceived, events))
  end.

(** The batch [handleReq] builds around the converted records: one resource
    entry, one instrumentation-library entry with the records, and the
    access token on the resource when passthrough is on and the header is
    set. *)
Definition newLogs (r : splunkReceiver) (req : Request) (logSlice : pdata.LogSlice)
    : pdata.Logs :=
  let ld := pdata.NewLogs in
  let rls := pdata.Resize pdata.NewResourceLogs (pdata.ld_ResourceLogs ld) 1 in
  let rl := default pdata.NewResourceLogs (rls !! 0%nat) in
  let resource := pdata.rl_Resource rl in
  let ills :=
    pdata.Resize pdata.NewInstrumentationLibraryLogs (pdata.rl_InstrumentationLibraryLogs rl) 1 in
  let ill := default pdata.NewInstrumentationLibraryLogs (ills !! 0%nat) in
  let ill := {| pdata.ill_Logs := pdata.MoveAndAppendTo logSlice (pdata.ill_Logs ill) |} in
  let resource :=
    if AccessTokenPassthrough (config r) then
      let accessToken := http.Header_Get (Header req) SplunkHECTokenHeader in
      if decide (accessToken ≠ "") then
        let resource := pdata.InitEmpty resource in
        {| pdata.IsNil := pdata.IsNil resource;
           pdata.ResourceAttributes :=
             pdata.InsertString (pdata.ResourceAttributes resource)
                                SplunkHecTokenLabel accessToken |}
      else resource
    else resource in
  {| pdata.ld_ResourceLogs :=
       <[0%nat := {| pdata.rl_Resource := resource;
                     pdata.rl_InstrumentationLibraryLogs := <[0%nat := ill]> ills |}]> rls |}.

Definition handleReq (r : splunkReceiver) (req : Request) : M unit :=
  let transport := match TLSSetting (config r) with Some _ => "https" | None => "http" end in
  span_do (StartMetricsReceiveOp (Name (config r)) transport) ;;
  if decide (Method req ≠ http.MethodPost) then
    failRequest r http.StatusBadRequest invalidMethodRespBody None
  else if decide (http.Header_Get (Header req) httpContentTypeHeader ≠ jsonContentType) then
    failRequest r http.StatusUnsupportedMediaType invalidContentRespBody None
  else
    let encoding := http.Header_Get (Header req) httpContentEncodingHeader in
    if decide (encoding ≠ "" ∧ encoding ≠ gzipEncoding) then
      failRequest r http.StatusUnsupportedMediaType invalidEncodingRespBody None
    else
      match (if decide (encoding = gzipEncoding) then NewReaderErr (Body req) else None) with
      | Some err => failRequest r http.StatusBadRequest errGzipReaderRespBody (Some err)
      | None =>
          if decide (ContentLength req = 0) then
            resp_Write okRespBody ;; mret tt
          else
            decoded ← decodeLoop r (Stream (Body req)) 0 [];
            match decoded with
            | None => mret tt
            | Some (messagesReceived, events) =>
                let '(logSlice, err) := SplunkHecToLogData events in
                match err with
                | Some e =>
                    failRequest r http.StatusBadRequest errUnmarshalBodyRespBody (Some e)
                | None =>
                    let ld := newLogs r req logSlice in
                    decodeErr ← ConsumeLogs r ld;
                    span_do (EndMetricsReceiveOp typeStr messagesReceived messagesReceived
                                                 decodeErr) ;;
                    match decodeErr with
                    | Some _ =>
                        failRequest r http.StatusInternalServerError errNextConsumerRespBody
                                    decodeErr
                    | None =>
                        resp_WriteHeader http.StatusAccepted ;;
                        resp_Write okRespBody ;; mret tt
                    end
                end
            end
      end.

End Handler.

(** The world a request starts in: nothing sent, no span operation yet. *)
Definition newWorld (connErr : option error) : World :=
  {| resp := {| http.statusCode := None; http.written := []; http.connErr := connErr |};
     span := []; consumed := []; logged := [] |}.

(** Running the handler on a fresh response writer whose connection
    returns [connErr] from [Write]. *)
Definition serve `{Externals} (r : splunkReceiver) (req : Request)
    (connErr : option error) : World :=
  snd (handleReq r req (newWorld connErr)).

(** The world once [handleReq] has started the receive operation. *)
Definition started (r : splunkReceiver) (w : World) : World :=
  snd (span_do (StartMetricsReceiveOp (Name (config r))
                  match TLSSetting (config r) with Some _ => "https" | None => "http" end) w).

(** ** Vocabulary of the statements *)

(** The three header checks at the head of [handleReq] let the request
    through. *)
Definition passesValidation (req : Request) : Prop :=
  Method req = http.MethodPost ∧
  http.Header_Get (Header req) httpContentTypeHeader = jsonContentType ∧
  (http.Header_Get (Header req) httpContentEncodingHeader = "" ∨
   http.Header_Get (Header req) httpContentEncodingHeader = gzipEncoding).

(** A gzip-encoded request has a body [gzip.NewReader] accepts. *)
Definition gzipReaderOk (req : Request) : Prop :=
  http.Header_Get (Header req) httpContentEncodingHeader = gzipEncoding →
  NewReaderErr (Body req) = None.

(** A body value that decodes to a log event. *)
Definition isLogEvent `{Externals} (d : DecodeResult) : Prop :=
  match d with
  | Decoded msg => IsMetric msg = false
  | DecodeErr _ => False
  end.

(** A body value that decodes to a metric event. *)
Definition isMetricEvent `{Externals} (d : DecodeResult) : Prop :=
  match d with
  | Decoded msg => IsMetric msg = true
  | DecodeErr _ => False
  end.


(** The operations that end the span. *)
Definition endsSpan (op : SpanOp) : bool :=
  match op with
  | EndMetricsReceiveOp _ _ _ _ | End_ => true
  | _ => false
  end.

Definition spanCompletions (w : World) : nat := length (List.filter endsSpan (span w)).

(** The status codes the handler sets on the span. *)
Definition statusCodesSet (w : World) : list trace.StatusCode :=
  omap (fun op => match op with SetStatus st => Some (trace.Code st) | _ => None end) (span w).

(** The same request with another body and declared length. *)
Definition withBody (req : Request) (cl : Z) (b : RequestBody) : Request :=
  {| Method := Method req; Header := Header req; ContentLength := cl; Body := b |}.

(** ** The tagged value union and the conversion from a raw value *)

Inductive Width := W8 | W16 | W32 | W64.

(** The value union: null, string, signed and unsigned integers with their
    width, floats with their width, bool, bytes, mapping and sequence. *)
Inductive Value :=
| ValueEmpty
| ValueStr (s : string)
| ValueInt (w : Width) (n : Z)
| ValueUint (w : Width) (n : Z)
| ValueFloat (k : FloatKind) (bits : Z)
| ValueBool (b : bool)
| ValueBytes (bs : string)
| ValueMap (kvs : list (string * Value))
| ValueSlice (vs : list Value).

(** Go's [int] and [uint] are 64 bits wide on the platforms the collector
    is built for. *)
Definition intWidth (k : IntKind) : Width :=
  match k with
  | KInt8 => W8 | KInt16 => W16 | KInt32 => W32 | KInt | KInt64 => W64
  end.

Definition uintWidth (k : UintKind) : Width :=
  match k with
  | KUint8 => W8 | KUint16 => W16 | KUint32 => W32 | KUint | KUint64 => W64
  end.

Definition errUnsupportedType (goType : string) : error := "unsupported type: " +:+ goType.

(** Modelled from the spec: [newValueFromRaw] of the Azure Event Hub
    receiver, of which only the test is among the embedded files.  The
    conversion is defined on the closed set of supported dynamic types,
    keeps width and sign of numbers, converts mappings and sequences
    element by element, and for any other value returns the
    unsupported-type error together with the empty value; an error inside a
    mapping or a sequence fails the whole conversion the same way. *)
Fixpoint newValueFromRaw (iv : Raw) : Value * option error :=
  match iv with
  | RNil => (ValueEmpty, None)
  | RString s => (ValueStr s, None)
  | RInt k n => (ValueInt (intWidth k) n, None)
  | RUint k n => (ValueUint (uintWidth k) n, None)
  | RFloat k bits => (ValueFloat k bits, None)
  | RBool b => (ValueBool b, None)
  | RBytes bs => (ValueBytes bs, None)
  | RMap kvs =>
      let fix entries (l : list (string * Raw)) : list (string * Value) * option error :=
        match l with
        | [] => ([], None)
        | (k, v) :: rest =>
            match newValueFromRaw v with
            | (_, Some e) => ([], Some e)
            | (v', None) =>
                match entries rest with
                | (_, Some e) => ([], Some e)
                | (m, None) => ((k, v') :: m, None)
                end
            end
        end in
      match entries kvs with
      | (_, Some e) => (ValueEmpty, Some e)
      | (m, None) => (ValueMap m, None)
      end
  | RSlice vs =>
      let fix elements (l : list Raw) : list Value * option error :=
        match l with
        | [] => ([], None)
        | v :: rest =>
            match newValueFromRaw v with
            | (_, Some e) => ([], Some e)
            | (v', None) =>
                match elements rest with
                | (_, Some e) => ([], Some e)
                | (s, None) => (v' :: s, None)
                end
            end
        end in
      match elements vs with
      | (_, Some e) => (ValueEmpty, Some e)
      | (s, None) => (ValueSlice s, None)
      end
  | ROther goType => (ValueEmpty, Some (errUnsupportedType goType))
  end.

(** The closed set of supported raw values: every dynamic type of the
    union, with mappings and sequences of supported values. *)
Fixpoint supported (iv : Raw) : bool :=
  match iv with
  | ROther _ => false
  | RMap kvs =>
      (fix all (l : list (string * Raw)) : bool :=
         match l with
         | [] => true
         | (_, v) :: rest => supported v && all rest
         end) kvs
  | RSlice vs =>
      (fix all (l : list Raw) : bool :=
         match l with
         | [] => true
         | v :: rest => supported v && all rest
         end) vs
  | _ => true
  end.

(** The table of [Test_newValueFromRaw]: name, value and whether an error
    is expected.  The floats are given by their bit patterns, the
    unsupported value by the name of its type. *)
Definition tests : list (string * Raw * bool) :=
  [ ("nil", RNil, false);
    ("string", RString "foo", false);
    ("int", RInt KInt 1234, false);
    ("int8", RInt KInt8 12, false);
    ("int16", RInt KInt16 123, false);
    ("int32", RInt KInt32 123, false);
    ("int64", RInt KInt64 123, false);
    ("uint", RUint KUint 123, false);
    ("uint8", RUint KUint8 12, false);
    ("uint16", RUint KUint16 1233, false);
    ("uint32", RUint KUint32 1233, false);
    ("uint64", RUint KUint64 1233, false);
    ("float32", RFloat KFloat32 1150954701, false);
    ("float64", RFloat KFloat64 4653139366013147546, false);
    ("bool", RBool true, false);
    ("[]byte", RBytes "foo", false);
    ("map[string]interface{}", RMap [("foo", RString "bar")], false);
    ("[]interface{}", RSlice [RString "foo"], false);
    ("unsupported", ROther "*azureeventhubreceiver.Config", true) ].

(** What the test asserts of one row: with [errExpected] an error and the
    empty value, otherwise no error. *)
Definition testPasses (row : string * Raw * bool) : bool :=
  let '(_, value, errExpected) := row in
  match newValueFromRaw value, errExpected with
  | (ValueEmpty, Some _), true => true
  | (_, None), false => true
  | _, _ => false
  end.

(** A supported nested value, and a sequence with an unsupported element
    behind a supported one. *)
Definition nestedRaw : Raw :=
  RMap [("sizes", RSlice [RInt KInt8 12; RUint KUint64 1233]); ("ok", RBool true)].

Definition brokenRaw : Raw :=
  RSlice [RString "foo"; RMap [("cfg", ROther "*azureeventhubreceiver.Config")]].

(** ** Lifecycle: [Shutdown] over the net/http server *)

(** How far the handler goroutine of a connection has come. *)
Inductive Stage := Validating | Decoding | Consuming | Responding | Returned.

(** A goroutine serving one request: its connection and its progress. *)
Record Handler := {
  connOpen : bool;
  stage : Stage
}.

(** [http.Server]: whether its listener is open, the handler goroutines it
    started, and the error closing the listener returns. *)
Record Server := {
  listening : bool;
  handlers : list Handler;
  listenerCloseErr : option error
}.

(** [Server.Close]: closes the listener and every connection at once and
    returns the listener's error; the handler goroutines are left where
    they are. *)
Definition Server_Close (srv : Server) : Server * option error :=
  ({| listening := false;
      handlers := map (fun h => {| connOpen := false; stage := stage h |}) (handlers srv);
      listenerCloseErr := listenerCloseErr srv |},
   if listening srv then listenerCloseErr srv else None).

(** The receiver with its embedded mutex and its server. *)
Record receiverState := {
  locked : bool;
  server : Server
}.

(** [Shutdown]: takes the mutex, closes the server, releases the mutex and
    returns the error of [Close].  [None] stands for a call that is blocked
    in [Lock] because the mutex is held. *)
Definition Shutdown (r : receiverState) : option (receiverState * option error) :=
  if locked r then None
  else
    let r := {| locked := true; server := server r |} in
    let '(srv, err) := Server_Close (server r) in
    let r := {| locked := false; server := srv |} in
    Some (r, err).

(** A handler is in flight until its goroutine has returned. *)
Definition inFlight (h : Handler) : bool :=
  match stage h with
  | Returned => false
  | _ => true
  end.

(** ** Concrete receivers and requests for the examples *)

(** An instance of the missing declarations for the examples: an event
    whose body is the string [metric] is a metric event. *)
Definition exampleExternals : Externals :=
  {| IsMetric := fun e => match EventBody e with RString "metric" => true | _ => false end;
     SplunkHECTokenHeader := "Splunk";
     SplunkHecTokenLabel := "com.splunk.hec.access_token";
     typeStr := "splunk_hec" |}.

Definition exampleConfig : Config :=
  {| Name := "splunk_hec"; Endpoint := "localhost:8088"; TLSSetting := None;
     AccessTokenPassthrough := false |}.

Definition acceptingReceiver : splunkReceiver :=
  {| config := exampleConfig; logConsumer := fun _ => None |}.

Definition failingReceiver : splunkReceiver :=
  {| config := exampleConfig; logConsumer := fun _ => Some "consumer unavailable" |}.

Definition exampleEvent (body : Raw) : Event :=
  {| Time := None; Host := "localhost"; Source := ""; SourceType := ""; Index := "";
     EventBody := body; Fields := [] |}.

Definition jsonHeader : gmap string (list string) :=
  {[ httpContentTypeHeader := [jsonContentType] ]}.

Definition gzipJsonHeader : gmap string (list string) :=
  <[ httpContentEncodingHeader := [gzipEncoding] ]> jsonHeader.

(** A POST of JSON values with chunked transfer encoding. *)
Definition chunkedPost (vals : list DecodeResult) : Request :=
  {| Method := http.MethodPost; Header := jsonHeader; ContentLength := -1;
     Body := {| NewReaderErr := Some "gzip: invalid header"; Stream := map NextValue vals |} |}.

(** A POST with [Content-Length: 0]. *)
Definition emptyPost : Request :=
  {| Method := http.MethodPost; Header := jsonHeader; ContentLength := 0;
     Body := {| NewReaderErr := Some "EOF"; Stream := [] |} |}.

(** A gzip-encoded POST without a single body byte, with the declared
    length [cl]. *)
Definition emptyGzipPost (cl : Z) : Request :=
  {| Method := http.MethodPost; Header := gzipJsonHeader; ContentLength := cl;
     Body := {| NewReaderErr := Some "EOF"; Stream := [] |} |}.

(** A server with one request in its consumer call. *)
Definition servingOne : receiverState :=
  {| locked := false;
     server := {| listening := true;
                  handlers := [ {| connOpen := true; stage := Consuming |} ];
                  listenerCloseErr := None |} |}.

(** Bodies that mix log events, a metric event and a value that does not
    decode. *)
Definition logThenMetricPost : Request :=
  chunkedPost [Decoded (exampleEvent (RString "started"));
               Decoded (exampleEvent (RString "metric"));
               DecodeErr "unexpected EOF"].


Definition malformedThenMetricPost : Request :=
  chunkedPost [DecodeErr "json: cannot unmarshal number into Go struct field Event.host of type string";
               Decoded (exampleEvent (RString "metric"))].


(** Two log events. *)
Definition twoLogsPost : Request :=
  chunkedPost [Decoded (exampleEvent (RString "started"));
               Decoded (exampleEvent (RString "stopped"))].

(** A chunked POST with a log event, a stray closing bracket and bytes
    that are no JSON value after it. *)
Definition strayBracketPost : Request :=
  {| Method := http.MethodPost; Header := jsonHeader; ContentLength := -1;
     Body := {| NewReaderErr := Some "gzip: invalid header";
                Stream := [NextValue (Decoded (exampleEvent (RString "started")));
                           Closing CloseBracket;
                           NextValue (DecodeErr "invalid character 'n' looking for beginning of object key string")] |} |}.

(** Requests the header checks turn away. *)
Definition getRequest : Request :=
  {| Method := "GET"; Header := jsonHeader; ContentLength := 0;
     Body := {| NewReaderErr := Some "EOF"; Stream := [] |} |}.

Definition textPlainPost : Request :=
  {| Method := http.MethodPost; Header := {[ httpContentTypeHeader := ["text/plain"] ]};
     ContentLength := 5;
     Body := {| NewReaderErr := Some "gzip: invalid header";
                Stream := [NextValue (DecodeErr "invalid character 'h' looking for beginning of value")] |} |}.

Definition deflatePost : Request :=
  {| Method := http.MethodPost;
     Header := <[ httpContentEncodingHeader := ["deflate"] ]> jsonHeader;
     ContentLength := -1;
     Body := {| NewReaderErr := Some "gzip: invalid header"; Stream := [] |} |}.

(** ** The outcomes of a request *)

(** How a request ends: accepted without a body, accepted with a batch of
    [n] messages, rejected by [failRequest] before any batch is built, or
    failed by the consumer. *)
Inductive Outcome :=
| AcceptedEmpty
| Accepted (ld : pdata.Logs) (n : Z)
| Rejected (code : Z) (body : string) (err : option error)
| DownstreamFailed (ld : pdata.Logs) (n : Z) (e : error).

(** The world after the consumer call and the end of the receive
    operation. *)
Definition afterConsume `{Externals} (r : splunkReceiver) (ld : pdata.Logs) (n : Z)
    (w : World) : World :=
  snd (span_do (EndMetricsReceiveOp typeStr n n (logConsumer r ld))
               (snd (ConsumeLogs r ld w))).

(** The world an outcome leaves behind. *)
Definition outcomeWorld `{Externals} (r : splunkReceiver) (o : Outcome) (w : World) : World :=
  match o with
  | AcceptedEmpty => snd (resp_Write okRespBody (started r w))
  | Accepted ld n =>
      snd (resp_Write okRespBody
             (snd (resp_WriteHeader http.StatusAccepted (afterConsume r ld n (started r w)))))
  | Rejected code body err => snd (failRequest r code body err (started r w))
  | DownstreamFailed ld n e =>
      snd (failRequest r http.StatusInternalServerError errNextConsumerRespBody (Some e)
             (afterConsume r ld n (started r w)))
  end.

(** The outcomes [handleReq] can have on a request. *)
Inductive handles `{Externals} (r : splunkReceiver) (req : Request) : Outcome → Prop :=
| handles_invalid_method :
    Method req ≠ http.MethodPost →
    handles r req (Rejected http.StatusBadRequest invalidMethodRespBody None)
| handles_invalid_content_type :
    Method req = http.MethodPost →
    http.Header_Get (Header req) httpContentTypeHeader ≠ jsonContentType →
    handles r req (Rejected http.StatusUnsupportedMediaType invalidContentRespBody None)
| handles_invalid_encoding :
    Method req = http.MethodPost →
    http.Header_Get (Header req) httpContentTypeHeader = jsonContentType →
    http.Header_Get (Header req) httpContentEncodingHeader ≠ "" →
    http.Header_Get (Header req) httpContentEncodingHeader ≠ gzipEncoding →
    handles r req (Rejected http.StatusUnsupportedMediaType invalidEncodingRespBody None)
| handles_gzip_error e :
    passesValidation req →
    http.Header_Get (Header req) httpContentEncodingHeader = gzipEncoding →
    NewReaderErr (Body req) = Some e →
    handles r req (Rejected http.StatusBadRequest errGzipReaderRespBody (Some e))
| handles_empty :
    passesValidation req → gzipReaderOk req → ContentLength req = 0 →
    handles r req AcceptedEmpty
| handles_malformed evs e rest :
    passesValidation req → gzipReaderOk req → ContentLength req ≠ 0 →
    Values (Body req) = map Decoded evs ++ DecodeErr e :: rest →
    Forall (fun ev => IsMetric ev = false) evs →
    handles r req (Rejected http.StatusBadRequest errUnmarshalBodyRespBody (Some e))
| handles_metric evs msg rest :
    passesValidation req → gzipReaderOk req → ContentLength req ≠ 0 →
    Values (Body req) = map Decoded evs ++ Decoded msg :: rest →
    Forall (fun ev => IsMetric ev = false) evs →
    IsMetric msg = true →
    handles r req (Rejected http.StatusBadRequest errUnsupportedMetricEvent None)
| handles_accepted evs :
    passesValidation req → gzipReaderOk req → ContentLength req ≠ 0 →
    Values (Body req) = map Decoded evs →
    Forall (fun ev => IsMetric ev = false) evs →
    logConsumer r (newLogs r req (map eventToLogRecord evs)) = None →
    handles r req (Accepted (newLogs r req (map eventToLogRecord evs))
                            (Z.of_nat (length evs)))
| handles_downstream_failed evs e :
    passesValidation req → gzipReaderOk req → ContentLength req ≠ 0 →
    Values (Body req) = map Decoded evs →
    Forall (fun ev => IsMetric ev = false) evs →
    logConsumer r (newLogs r req (map eventToLogRecord evs)) = Some e →
    handles r req (DownstreamFailed (newLogs r req (map eventToLogRecord evs))
                                    (Z.of_nat (length evs)) e).

(** ** The rest of the receiver: [New] and [Start] *)

(** [defaultServerTimeout], a [time.Duration] in nanoseconds. *)
Definition defaultServerTimeout : Z := 20 * 1000000000.

Definition errNilNextConsumer : error := "nil metricsConsumer".
Definition errEmptyEndpoint : error := "empty endpoint".

(** The fields of [http.Server] the receiver writes. *)
Record ServerSettings := {
  Addr : string;
  ReadHeaderTimeout : Z;
  WriteTimeout : Z
}.

(** The listener [ToListener] opens, with the error its [Close] returns. *)
Record Listener := { lnCloseErr : option error }.

(** The whole [splunkReceiver]: what the handler reads of it, its mutex with
    the server, the settings of that server, and the goroutine [Start] has
    launched to serve on a listener, which has not called [Serve] yet. *)
Record receiver := {
  handler : splunkReceiver;
  lifecycle : receiverState;
  settings : ServerSettings;
  serveOn : option Listener
}.

(** [New]: [nextConsumer] is [None] for a nil consumer.  The server it
    prepares is not serving. *)
Definition New (config : Config) (nextConsumer : option (pdata.Logs → option error))
    : option receiver * option error :=
  match nextConsumer with
  | None => (None, Some errNilNextConsumer)
  | Some c =>
      if decide (Endpoint config = "") then (None, Some errEmptyEndpoint)
      else
        (Some {| handler := {| config := config; logConsumer := c |};
                 lifecycle := {| locked := false;
                                 server := {| listening := false; handlers := [];
                                              listenerCloseErr := None |} |};
                 settings := {| Addr := Endpoint config;
                                ReadHeaderTimeout := defaultServerTimeout;
                                WriteTimeout := defaultServerTimeout |};
                 serveOn := None |},
         None)
  end.

(** [Start]: [toListener] is the result of [ToListener], [toServer] the
    server [ToServer] builds around the router.  [None] stands for a call
    blocked in [Lock].  The new server tracks no listener and has no
    request when [Start] returns: [Serve] runs in the goroutine that
    [Start] launches. *)
Definition Start (toListener : Listener + error) (toServer : ServerSettings) (r : receiver)
    : option (receiver * option error) :=
  if locked (lifecycle r) then None
  else
    match toListener with
    | inr err =>
        Some (r, Some ("failed to bind to address " +:+ Endpoint (config (handler r))
                       +:+ ": " +:+ err))
    | inl ln =>
        Some ({| handler := handler r;
                 lifecycle := {| locked := false;
                                 server := {| listening := false; handlers := [];
                                              listenerCloseErr := None |} |};
                 settings := {| Addr := Addr toServer;
                                ReadHeaderTimeout := defaultServerTimeout;
                                WriteTimeout := defaultServerTimeout |};
                 serveOn := Some ln |},
              None)
    end.

(** A receiver as [New] returns it for the example configuration. *)
Definition newReceiver : receiver :=
  {| handler := acceptingReceiver;
     lifecycle := {| locked := false;
                     server := {| listening := false; handlers := [];
                                  listenerCloseErr := None |} |};
     settings := {| Addr := "localhost:8088"; ReadHeaderTimeout := 20000000000;
                    WriteTimeout := 20000000000 |};
     serveOn := None |}.

(** The server [ToServer] returns, before the timeouts are set. *)
Definition routedServer : ServerSettings :=
  {| Addr := ""; ReadHeaderTimeout := 0; WriteTimeout := 0 |}.

(** The same receiver when [Start] has returned. *)
Definition startedReceiver : receiver :=
  {| handler := acceptingReceiver;
     lifecycle := {| locked := false;
                     server := {| listening := false; handlers := [];
                                  listenerCloseErr := None |} |};
     settings := {| Addr := ""; ReadHeaderTimeout := 20000000000;
                    WriteTimeout := 20000000000 |};
     serveOn := Some {| lnCloseErr := None |} |}.

(** ** Further vocabulary *)

(** The ASCII bytes [json.Marshal] copies unchanged. *)
Definition plainByte (c : ascii) : bool :=
  let n := N_of_ascii c in
  (n <? 128)%N &&
  negb ((n <? 32)%N || (n =? 34)%N || (n =? 92)%N || (n =? 60)%N || (n =? 62)%N
        || (n =? 38)%N).

Fixpoint plainString (s : string) : bool :=
  match s with
  | EmptyString => true
  | String c rest => plainByte c && plainString rest
  end.

(** The receive operations the handler ends, with their counts and error. *)
Definition receiveOpsEnded (w : World) : list (Z * Z * option error) :=
  omap (fun op => match op with
                  | EndMetricsReceiveOp _ n m err => Some (n, m, err)
                  | _ => None
                  end) (span w).

(** A code [WriteHeader] accepts and that allows a body. *)
Definition codeWithBody (code : Z) : Prop :=
  http.checkWriteHeaderCode code = true ∧ http.bodyAllowedForStatus code = true.

(** [WriteHeader] does not panic: a header was sent before, or the code is
    one it accepts. *)
Definition headerAccepted (code : Z) (w : World) : Prop :=
  http.statusCode (resp w) ≠ None ∨ http.checkWriteHeaderCode code = true.

(** What [failRequest] gets back from [resp.Write] on the writer [rw]: it
    does not call [Write] for an empty body; under a status that allows no
    body [Write] refuses; otherwise the connection answers. *)
Definition writeError (code : Z) (body : string) (rw : http.ResponseWriter) : option error :=
  if decide (body = "") then None
  else if http.bodyAllowedForStatus (default code (http.statusCode rw)) then http.connErr rw
  else Some http.ErrBodyNotAllowed.

(** The resource of the single entry of a batch. *)
Definition batchResource (ld : pdata.Logs) : option pdata.Resource :=
  pdata.rl_Resource <$> (pdata.ld_ResourceLogs ld !! 0%nat).

(** A request with the same method, declared length and body under other
    headers. *)
Definition withHeader (req : Request) (h : gmap string (list string)) : Request :=
  {| Method := Method req; Header := h; ContentLength := ContentLength req; Body := Body req |}.

(** A two-event POST that carries an access token. *)
Definition tokenPost : Request :=
  withHeader twoLogsPost (<[ "Splunk" := ["00000000-0000-0000-0000-000000000000"] ]> jsonHeader).

Definition passthroughReceiver : splunkReceiver :=
  {| config := {| Name := "splunk_hec"; Endpoint := "localhost:8088"; TLSSetting := None;
                  AccessTokenPassthrough := true |};
     logConsumer := fun _ => None |}.

(** A gzip-encoded POST of two log events with a readable gzip header. *)
Definition gzipTwoLogsPost : Request :=
  {| Method := http.MethodPost; Header := gzipJsonHeader; ContentLength := 71;
     Body := {| NewReaderErr := None;
                Stream := [NextValue (Decoded (exampleEvent (RString "started")));
                           NextValue (Decoded (exampleEvent (RString "stopped")))] |} |}.

(** A gzip-encoded POST whose body is not gzip. *)
Definition notGzipPost : Request :=
  {| Method := http.MethodPost; Header := gzipJsonHeader; ContentLength := 17;
     Body := {| NewReaderErr := Some "gzip: invalid header"; Stream := [] |} |}.

(** ** receiver/couchbasereceiver/internal/metadata: the metrics builder *)

Module metadata.

Record MetricSettings := { Enabled : bool }.

(** [MetricsSettings] has no field. *)
Inductive MetricsSettings : Set := NoMetricsSettings.

Definition DefaultMetricsSettings : MetricsSettings := NoMetricsSettings.

(** The part of [pmetric] the builder touches: a resource with its
    attributes, scopes with a name and their metrics. *)
Record Metric := { MetricName : string }.

Record ScopeMetrics := {
  ScopeName : string;
  Metrics : list Metric
}.

Record Resource := { Attributes : gmap string Value }.

Record ResourceMetrics := {
  rm_Resource : Resource;
  rm_ScopeMetrics : list ScopeMetrics
}.

Definition NewMetrics : list ResourceMetrics := [].

Definition NewResourceMetrics : ResourceMetrics :=
  {| rm_Resource := {| Attributes := ∅ |}; rm_ScopeMetrics := [] |}.

(** [startTime] is a [pcommon.Timestamp], the capacities are Go [int]s. *)
Record MetricsBuilder := {
  startTime : Z;
  metricsCapacity : Z;
  resourceCapacity : Z;
  metricsBuffer : list ResourceMetrics
}.

Definition metricBuilderOption : Type := MetricsBuilder → MetricsBuilder.

Definition WithStartTime (start : Z) : metricBuilderOption := fun mb =>
  {| startTime := start; metricsCapacity := metricsCapacity mb;
     resourceCapacity := resourceCapacity mb; metricsBuffer := metricsBuffer mb |}.

(** [NewMetricsBuilder]: [now] is the timestamp of [time.Now()]. *)
Definition NewMetricsBuilder (settings : MetricsSettings) (now : Z)
    (options : list metricBuilderOption) : MetricsBuilder :=
  let mb := {| startTime := now; metricsCapacity := 0; resourceCapacity := 0;
               metricsBuffer := NewMetrics |} in
  foldl (fun mb op => op mb) mb options.

(** [updateCapacity]; [None] is the panic of [At(0)] on a resource without
    scope. *)
Definition updateCapacity (mb : MetricsBuilder) (rm : ResourceMetrics)
    : option MetricsBuilder :=
  match rm_ScopeMetrics rm !! 0%nat with
  | None => None
  | Some sm =>
      let mb :=
        if metricsCapacity mb <? Z.of_nat (length (Metrics sm))
        then {| startTime := startTime mb;
                metricsCapacity := Z.of_nat (length (Metrics sm));
                resourceCapacity := resourceCapacity mb;
                metricsBuffer := metricsBuffer mb |}
        else mb in
      Some (if resourceCapacity mb <? Z.of_nat (size (Attributes (rm_Resource rm)))
            then {| startTime := startTime mb;
                    metricsCapacity := metricsCapacity mb;
                    resourceCapacity := Z.of_nat (size (Attributes (rm_Resource rm)));
                    metricsBuffer := metricsBuffer mb |}
            else mb)
  end.

(** A [ResourceOption] changes the resource it is given. *)
Definition ResourceOption : Type := Resource → Resource.

(** [EmitForResource]; [EnsureCapacity] changes no content.  [None] is a
    panic. *)
Definition EmitForResource (mb : MetricsBuilder) (ro : list ResourceOption)
    : option MetricsBuilder :=
  let rm := NewResourceMetrics in
  let rm := foldl (fun rm op => {| rm_Resource := op (rm_Resource rm);
                                   rm_ScopeMetrics := rm_ScopeMetrics rm |}) rm ro in
  let ils := {| ScopeName := ""; Metrics := [] |} in
  let ils := {| ScopeName := "otelcol/couchbasereceiver"; Metrics := Metrics ils |} in
  let rm := {| rm_Resource := rm_Resource rm;
               rm_ScopeMetrics := rm_ScopeMetrics rm ++ [ils] |} in
  if 0 <? Z.of_nat (length (Metrics ils)) then
    match updateCapacity mb rm with
    | None => None
    | Some mb =>
        Some {| startTime := startTime mb; metricsCapacity := metricsCapacity mb;
                resourceCapacity := resourceCapacity mb;
                metricsBuffer := metricsBuffer mb ++ [rm] |}
    end
  else Some mb.

(** [Emit]: the buffer is moved into the result and left empty. *)
Definition Emit (mb : MetricsBuilder) (ro : list ResourceOption)
    : option (list ResourceMetrics * MetricsBuilder) :=
  match EmitForResource mb ro with
  | None => None
  | Some mb =>
      Some (metricsBuffer mb,
            {| startTime := startTime mb; metricsCapacity := metricsCapacity mb;
               resourceCapacity := resourceCapacity mb; metricsBuffer := NewMetrics |})
  end.

(** [Reset]. *)
Definition Reset (mb : MetricsBuilder) (now : Z) (options : list metricBuilderOption)
    : MetricsBuilder :=
  let mb := {| startTime := now; metricsCapacity := metricsCapacity mb;
               resourceCapacity := resourceCapacity mb;
               metricsBuffer := metricsBuffer mb |} in
  foldl (fun mb op => op mb) mb options.

(** The calls a scraper makes on its builder, with start-time options. *)
Inductive Call :=
| CallEmitForResource (ro : list ResourceOption)
| CallEmit (ro : list ResourceOption)
| CallReset (now : Z) (starts : list Z).

(** One call: the builder afterwards and what the call returned, if it
    returns metrics. *)
Definition call (mb : MetricsBuilder) (c : Call)
    : option (MetricsBuilder * option (list ResourceMetrics)) :=
  match c with
  | CallEmitForResource ro =>
      match EmitForResource mb ro with
      | None => None
      | Some mb => Some (mb, None)
      end
  | CallEmit ro =>
      match Emit mb ro with
      | None => None
      | Some (metrics, mb) => Some (mb, Some metrics)
      end
  | CallReset now starts => Some (Reset mb now (map WithStartTime starts), None)
  end.

(** A sequence of calls, with everything [Emit] returned. *)
Fixpoint calls (mb : MetricsBuilder) (cs : list Call)
    : option (MetricsBuilder * list (list ResourceMetrics)) :=
  match cs with
  | [] => Some (mb, [])
  | c :: cs =>
      match call mb c with
      | None => None
      | Some (mb, out) =>
          match calls mb cs with
          | None => None
          | Some (mb, outs) =>
              Some (mb, match out with Some m => m :: outs | None => outs end)
          end
      end
  end.

End metadata.

(** ** processor/websocketprocessor: the registry and the connections *)

Module websocketprocessor.

(** [processor.CreateSettings], the fields [newProcessor] reads. *)
Record CreateSettings := {
  ID : string;
  TelemetrySettings : string
}.

(** [obsreport.Processor]. *)
Record ObsProcessor := { ProcessorID : string }.

(** [wsprocessor]: the configuration is a pointer, given by its address; a
    channel is given by the number [make] gave it. *)
Record wsprocessor := {
  config : positive;
  obsproc : ObsProcessor;
  telemetrySettings : string;
  connections : gmap string nat
}.

(** [newProcessor] over the package's [processors] map; [NewProcessor] is
    [obsreport.NewProcessor] on the settings it is called with. *)
Definition newProcessor (processors : gmap positive wsprocessor)
    (NewProcessor : string → ObsProcessor + error)
    (settings : CreateSettings) (config : positive)
    : gmap positive wsprocessor * (option wsprocessor * option error) :=
  match processors !! config with
  | Some p => (processors, (Some p, None))
  | None =>
      match NewProcessor (ID settings) with
      | inr err => (processors, (None, Some err))
      | inl obsproc =>
          let conns : gmap string nat := ∅ in
          let p := {| config := config; obsproc := obsproc;
                      telemetrySettings := TelemetrySettings settings;
                      connections := conns |} in
          (<[config := p]> processors, (Some p, None))
      end
  end.

(** What a connection handler does, in order. *)
Inductive Action :=
| LogDebug (msg : string) (err : error)
| Register (key : string) (c : nat)
| WriteMsg (msg : string)
| Unregister (key : string).

(** The loop of [handleConn] over the values it receives from its channel,
    each with the error [conn.Write] returns for it; a closed channel
    delivers the empty message.  The result is the messages handed to
    [conn.Write] and whether the loop was left; it is not left while the
    handler waits for the next value. *)
Fixpoint connLoop (received : list (string * option error)) : list string * bool :=
  match received with
  | [] => ([], false)
  | (msg, werr) :: rest =>
      if (String.length msg =? 0)%nat then ([], true)
      else
        match werr with
        | Some _ => ([msg], true)
        | None => let '(ws, over) := connLoop rest in (msg :: ws, over)
        end
  end.

(** [handleConn]: [deadlineErr] is the error of [SetDeadline], [key] the
    request URI, [sendChan] the channel it makes.  The second component
    tells whether the handler has returned. *)
Definition handleConn (deadlineErr : option error) (key : string) (sendChan : nat)
    (received : list (string * option error)) : list Action * bool :=
  match deadlineErr with
  | Some err => ([LogDebug "Error setting deadline" err], true)
  | None =>
      let '(ws, over) := connLoop received in
      (Register key sendChan :: map WriteMsg ws ++ (if over then [Unregister key] else []),
       over)
  end.

(** The effect of an action on [connections]. *)
Definition applyAction (conns : gmap string nat) (a : Action) : gmap string nat :=
  match a with
  | Register key c => <[key := c]> conns
  | Unregister key => delete key conns
  | LogDebug _ _ | WriteMsg _ => conns
  end.

(** [sendToConnections]: the sends it makes, one per registered channel, in
    the order the map is ranged over. *)
Definition sendToConnections (conns : gmap string nat) (payload : string)
    : list (nat * string) :=
  map (fun kc => (snd kc, payload)) (map_to_list conns).

End websocketprocessor.

(** The processor made for the configuration at address 7. *)
Definition exampleProcessor : websocketprocessor.wsprocessor :=
  {| websocketprocessor.config := 7;
     websocketprocessor.obsproc := {| websocketprocessor.ProcessorID := "websocket" |};
     websocketprocessor.telemetrySettings := "t1";
     websocketprocessor.connections := ∅ |}.

(** * Properties *)

(** ** The response writer and [failRequest] *)

Ltac run_monad :=
  unfold mbind, mret, M_bind, M_ret, resp_WriteHeader, resp_Write, span_do, logger_do,
    ConsumeLogs in *; cbn [fst snd resp span consumed logged] in *.

(** Unfolds [failRequest] on a world and a body given by their parts, and
    goes through the cases of the response writer. *)
Ltac run_failRequest :=
  unfold failRequest; run_monad; unfold http.Write, http.WriteHeader;
  cbn [http.statusCode http.written http.connErr String.length Nat.ltb Nat.leb Nat.eqb
       fst snd resp span consumed logged default option_map id].

Ltac split_response :=
  repeat match goal with
         | |- context [http.bodyAllowedForStatus ?c] =>
             let E := fresh "Hallowed" in
             destruct (http.bodyAllowedForStatus c) eqn:E; run_failRequest
         | |- context [match ?x with Some _ => _ | None => _ end] =>
             is_var x; destruct x; run_failRequest
         end.

Section FailRequest.
Context `{Externals}.
Variables (r : splunkReceiver) (code : Z) (body : string) (err : option error).

(** With a code [WriteHeader] accepts, [failRequest] returns. *)
Lemma failRequest_returns (w : World) :
  http.checkWriteHeaderCode code = true →
  failRequest r code body err w = (inl tt, snd (failRequest r code body err w)).
Proof.
  intros Hcode. destruct w as [[sc wr ce] sp cs lg]. destruct body as [|c b].
  all: run_failRequest; destruct sc as [c0|]; rewrite ?Hcode; run_failRequest;
    split_response; reflexivity.
Qed.

(** The status on the span: internal for a 500, invalid-argument otherwise;
    the message is the error's text. *)
Lemma failRequest_span (w : World) :
  http.checkWriteHeaderCode code = true →
  span (snd (failRequest r code body err w)) =
  span w ++
  [AddAttributes code body;
   SetStatus {| trace.Code := if decide (code = http.StatusInternalServerError)
                              then trace.StatusCodeInternal
                              else trace.StatusCodeInvalidArgument;
                trace.Message := default "" err |};
   End_].
Proof.
  intros Hcode. destruct w as [[sc wr ce] sp cs lg]. destruct body as [|c b].
  all: run_failRequest; destruct sc as [c0|]; rewrite ?Hcode; run_failRequest;
    split_response; destruct (decide _), err; cbn; rewrite <- ?app_assoc; reflexivity.
Qed.

(** The consumer is not called, whether [failRequest] returns or panics. *)
Lemma failRequest_consumed (w : World) :
  consumed (snd (failRequest r code body err w)) = consumed w.
Proof.
  destruct w as [[sc wr ce] sp cs lg]. destruct body as [|c b].
  all: run_failRequest; destruct sc as [c0|];
    [|destruct (http.checkWriteHeaderCode code)]; run_failRequest;
    split_response; reflexivity.
Qed.

(** On a fresh response writer, with a code that is accepted and allows a
    body, the status line carries [code] and the body is written once. *)
Lemma failRequest_resp (w : World) :
  http.statusCode (resp w) = None →
  (0 < String.length body)%nat →
  http.checkWriteHeaderCode code = true →
  http.bodyAllowedForStatus code = true →
  http.statusCode (resp (snd (failRequest r code body err w))) = Some code ∧
  http.written (resp (snd (failRequest r code body err w))) = http.written (resp w) ++ [body].
Proof.
  intros Hfresh Hlen Hcode Hbody.
  destruct w as [[sc wr ce] sp cs lg]. cbn in Hfresh. subst sc.
  destruct body as [|c b]; [cbn in Hlen; lia|].
  run_failRequest. rewrite Hcode. run_failRequest. rewrite Hbody. run_failRequest.
  destruct ce; run_failRequest; split; reflexivity.
Qed.

End FailRequest.

(** ** The decoding loop *)

Section DecodeLoop.
Context `{Externals}.
Variable r : splunkReceiver.

(** A stream is the values the decoder gets to, followed by a rest at
    which [dec.More()] is false. *)
Lemma stream_split (s : list StreamItem) :
  ∃ tail, s = map NextValue (valuesOf s) ++ tail ∧ More tail = false.
Proof.
  induction s as [|[d|b|e] s (tail & IH & Hm)].
  - exists []. split; reflexivity.
  - exists tail. cbn. split; [f_equal; assumption|assumption].
  - eexists. split; reflexivity.
  - eexists. split; reflexivity.
Qed.

(** Where [dec.More()] is false the loop ends with what it has. *)
Lemma decodeLoop_no_more (tail : list StreamItem) (n : Z) (acc : list Event) (w : World) :
  More tail = false →
  decodeLoop r tail n acc w = (inl (Some (n, acc)), w).
Proof. destruct tail as [|[d|b|e] tail]; [reflexivity|discriminate|reflexivity..]. Qed.

(** Log events are counted and collected in order; the world is not
    touched. *)
Lemma decodeLoop_logs (evs : list Event) (rest : list StreamItem) :
  Forall (fun e => IsMetric e = false) evs →
  ∀ (n : Z) (acc : list Event) (w : World),
    decodeLoop r (map NextValue (map Decoded evs) ++ rest) n acc w =
    decodeLoop r rest (n + Z.of_nat (length evs)) (acc ++ evs) w.
Proof.
  induction 1 as [|e evs He _ IH]; intros n acc w; cbn [map app decodeLoop length].
  - rewrite Z.add_0_r, app_nil_r. reflexivity.
  - rewrite He, IH, <- app_assoc. cbn [app]. f_equal. lia.
Qed.

Lemma decodeLoop_all_logs (evs : list Event) (s : list StreamItem) (w : World) :
  valuesOf s = map Decoded evs →
  Forall (fun e => IsMetric e = false) evs →
  decodeLoop r s 0 [] w = (inl (Some (Z.of_nat (length evs), evs)), w).
Proof.
  intros Hs Hevs. destruct (stream_split s) as (tail & Heq & Hm).
  rewrite Heq, Hs, decodeLoop_logs by assumption.
  apply decodeLoop_no_more. assumption.
Qed.

(** A metric event after log events fails the request as unsupported. *)
Lemma decodeLoop_metric (evs : list Event) (msg : Event) (rest : list DecodeResult)
    (s : list StreamItem) (w : World) :
  valuesOf s = map Decoded evs ++ Decoded msg :: rest →
  Forall (fun e => IsMetric e = false) evs →
  IsMetric msg = true →
  decodeLoop r s 0 [] w =
  (inl None, snd (failRequest r http.StatusBadRequest errUnsupportedMetricEvent None w)).
Proof.
  intros Hs Hevs Hm. destruct (stream_split s) as (tail & Heq & _).
  rewrite Heq, Hs, map_app, <- app_assoc, decodeLoop_logs by assumption.
  cbn [map app decodeLoop]. rewrite Hm. unfold mbind, M_bind.
  rewrite failRequest_returns by reflexivity. reflexivity.
Qed.

(** A value that does not decode, after log events, fails the request as
    malformed. *)
Lemma decodeLoop_malformed (evs : list Event) (e : error) (rest : list DecodeResult)
    (s : list StreamItem) (w : World) :
  valuesOf s = map Decoded evs ++ DecodeErr e :: rest →
  Forall (fun e => IsMetric e = false) evs →
  decodeLoop r s 0 [] w =
  (inl None, snd (failRequest r http.StatusBadRequest errUnmarshalBodyRespBody (Some e) w)).
Proof.
  intros Hs Hevs. destruct (stream_split s) as (tail & Heq & _).
  rewrite Heq, Hs, map_app, <- app_assoc, decodeLoop_logs by assumption.
  cbn [map app decodeLoop]. unfold mbind, M_bind.
  rewrite failRequest_returns by reflexivity. reflexivity.
Qed.

End DecodeLoop.

(** ** The paths through [handleReq] *)

Section Paths.
Context `{Externals}.
Variables (r : splunkReceiver) (req : Request).

Lemma handleReq_invalid_method (w : World) :
  Method req ≠ http.MethodPost →
  handleReq r req w = failRequest r http.StatusBadRequest invalidMethodRespBody None (started r w).
Proof.
  intros Hm. unfold handleReq, started. run_monad.
  destruct (decide (Method req ≠ http.MethodPost)); [reflexivity|contradiction].
Qed.

Lemma handleReq_invalid_content_type (w : World) :
  Method req = http.MethodPost →
  http.Header_Get (Header req) httpContentTypeHeader ≠ jsonContentType →
  handleReq r req w =
  failRequest r http.StatusUnsupportedMediaType invalidContentRespBody None (started r w).
Proof.
  intros Hm Hct. unfold handleReq, started. run_monad.
  destruct (decide (Method req ≠ http.MethodPost)); [contradiction|].
  destruct (decide (_ ≠ jsonContentType)); [reflexivity|contradiction].
Qed.

Lemma handleReq_invalid_encoding (w : World) :
  Method req = http.MethodPost →
  http.Header_Get (Header req) httpContentTypeHeader = jsonContentType →
  http.Header_Get (Header req) httpContentEncodingHeader ≠ "" →
  http.Header_Get (Header req) httpContentEncodingHeader ≠ gzipEncoding →
  handleReq r req w =
  failRequest r http.StatusUnsupportedMediaType invalidEncodingRespBody None (started r w).
Proof.
  intros Hm Hct He1 He2. unfold handleReq, started. run_monad.
  destruct (decide (Method req ≠ http.MethodPost)); [contradiction|].
  destruct (decide (_ ≠ jsonContentType)); [contradiction|].
  destruct (decide (_ ∧ _)) as [_|Hn]; [reflexivity|].
  exfalso. apply Hn. split; assumption.
Qed.

Lemma handleReq_gzip_error (e : error) (w : World) :
  Method req = http.MethodPost →
  http.Header_Get (Header req) httpContentTypeHeader = jsonContentType →
  http.Header_Get (Header req) httpContentEncodingHeader = gzipEncoding →
  NewReaderErr (Body req) = Some e →
  handleReq r req w =
  failRequest r http.StatusBadRequest errGzipReaderRespBody (Some e) (started r w).
Proof.
  intros Hm Hct He Hgz. unfold handleReq, started. run_monad.
  destruct (decide (Method req ≠ http.MethodPost)); [contradiction|].
  destruct (decide (_ ≠ jsonContentType)); [contradiction|].
  destruct (decide (_ ∧ _)) as [[_ Hn]|_]; [contradiction|].
  destruct (decide (_ = gzipEncoding)); [|contradiction].
  rewrite Hgz. reflexivity.
Qed.

(** The gzip reader, when one is asked for, is created. *)
Lemma reader_created :
  gzipReaderOk req →
  (if decide (http.Header_Get (Header req) httpContentEncodingHeader = gzipEncoding)
   then NewReaderErr (Body req) else None) = None.
Proof. intros Hgz. destruct (decide _); [apply Hgz; assumption|reflexivity]. Qed.

Lemma handleReq_empty (w : World) :
  passesValidation req → gzipReaderOk req → ContentLength req = 0 →
  handleReq r req w = (inl tt, snd (resp_Write okRespBody (started r w))).
Proof.
  intros (Hm & Hct & Henc) Hgz Hcl. unfold handleReq, started.
  unfold mbind at 1, M_bind at 1. cbn [span_do].
  destruct (decide (Method req ≠ http.MethodPost)); [contradiction|].
  destruct (decide (_ ≠ jsonContentType)); [contradiction|].
  destruct (decide (_ ∧ _)) as [[Hn1 Hn2]|_]; [destruct Henc; contradiction|].
  rewrite reader_created by assumption.
  destruct (decide (ContentLength req = 0)); [|contradiction].
  unfold mbind, M_bind, mret, M_ret, resp_Write.
  destruct (http.Write _ _) as [rw we]. reflexivity.
Qed.

(** Past the checks the handler runs the loop and continues from its
    result. *)
Lemma handleReq_loop_failed (w w' : World) :
  passesValidation req → gzipReaderOk req → ContentLength req ≠ 0 →
  decodeLoop r (Stream (Body req)) 0 [] (started r w) = (inl None, w') →
  handleReq r req w = (inl tt, w').
Proof.
  intros (Hm & Hct & Henc) Hgz Hcl Hloop. unfold handleReq.
  unfold mbind at 1, M_bind at 1. cbn [span_do].
  unfold started, span_do in Hloop. cbn [snd] in Hloop.
  destruct (decide (Method req ≠ http.MethodPost)); [contradiction|].
  destruct (decide (_ ≠ jsonContentType)); [contradiction|].
  destruct (decide (_ ∧ _)) as [[Hn1 Hn2]|_]; [destruct Henc; contradiction|].
  rewrite reader_created by assumption.
  destruct (decide (ContentLength req = 0)); [contradiction|].
  unfold mbind at 1, M_bind at 1. rewrite Hloop. reflexivity.
Qed.

Lemma handleReq_loop_done (w w' : World) (n : Z) (evs : list Event) :
  passesValidation req → gzipReaderOk req → ContentLength req ≠ 0 →
  decodeLoop r (Stream (Body req)) 0 [] (started r w) = (inl (Some (n, evs)), w') →
  handleReq r req w =
  let ld := newLogs r req (map eventToLogRecord evs) in
  let w'' := snd (span_do (EndMetricsReceiveOp typeStr n n (logConsumer r ld))
                          (snd (ConsumeLogs r ld w'))) in
  match logConsumer r ld with
  | Some e => failRequest r http.StatusInternalServerError errNextConsumerRespBody (Some e) w''
  | None =>
      (inl tt, snd (resp_Write okRespBody (snd (resp_WriteHeader http.StatusAccepted w''))))
  end.
Proof.
  intros (Hm & Hct & Henc) Hgz Hcl Hloop. unfold handleReq.
  unfold mbind at 1, M_bind at 1. cbn [span_do].
  unfold started, span_do in Hloop. cbn [snd] in Hloop.
  destruct (decide (Method req ≠ http.MethodPost)); [contradiction|].
  destruct (decide (_ ≠ jsonContentType)); [contradiction|].
  destruct (decide (_ ∧ _)) as [[Hn1 Hn2]|_]; [destruct Henc; contradiction|].
  rewrite reader_created by assumption.
  destruct (decide (ContentLength req = 0)); [contradiction|].
  unfold mbind at 1, M_bind at 1. rewrite Hloop.
  unfold SplunkHecToLogData. cbn zeta. cbn beta iota.
  unfold mbind at 1, M_bind at 1. unfold ConsumeLogs at 1.
  unfold mbind at 1, M_bind at 1. unfold span_do at 1.
  cbn iota beta.
  destruct (logConsumer r _) as [e|]; [reflexivity|].
  unfold mbind, M_bind, mret, M_ret, resp_WriteHeader, http.WriteHeader.
  change (http.checkWriteHeaderCode http.StatusAccepted) with true.
  destruct (http.statusCode _); cbn iota beta;
    unfold resp_Write; destruct (http.Write _ _); reflexivity.
Qed.

End Paths.

(** ** Every request has one of the outcomes *)

Section Outcomes.
Context `{Externals}.

(** A body is a run of log events, followed by nothing, by a metric event or
    by a value that does not decode. *)
Lemma body_split (vals : list DecodeResult) :
  ∃ evs, Forall (fun ev => IsMetric ev = false) evs ∧
    (vals = map Decoded evs ∨
     (∃ msg rest, IsMetric msg = true ∧ vals = map Decoded evs ++ Decoded msg :: rest) ∨
     (∃ e rest, vals = map Decoded evs ++ DecodeErr e :: rest)).
Proof.
  induction vals as [|d vals (evs & Hevs & IH)].
  - exists []. split; [constructor|left; reflexivity].
  - destruct d as [msg|e].
    + destruct (IsMetric msg) eqn:Hm.
      * exists []. split; [constructor|]. right; left. exists msg, vals. split; [assumption|reflexivity].
      * exists (msg :: evs). split; [constructor; assumption|].
        destruct IH as [->|[(m & rest & Hm' & ->)|(e & rest & ->)]].
        -- left; reflexivity.
        -- right; left. exists m, rest. split; [assumption|reflexivity].
        -- right; right. exists e, rest. reflexivity.
    + exists []. split; [constructor|]. right; right. exists e, vals. reflexivity.
Qed.

(** Past the header checks and the gzip reader. *)
Lemma handled_past_checks (r : splunkReceiver) (req : Request) (w : World) :
  passesValidation req → gzipReaderOk req →
  ∃ o, handles r req o ∧ handleReq r req w = (inl tt, outcomeWorld r o w).
Proof.
  intros Hv Hgz.
  destruct (decide (ContentLength req = 0)) as [Hcl|Hcl].
  { exists AcceptedEmpty. split; [apply handles_empty; assumption|].
    apply handleReq_empty; assumption. }
  destruct (body_split (Values (Body req)))
    as (evs & Hevs & [Hb|[(msg & rest & Hm & Hb)|(e & rest & Hb)]]).
  - destruct (logConsumer r (newLogs r req (map eventToLogRecord evs))) as [e|] eqn:Hc.
    + eexists. split; [eapply handles_downstream_failed; eassumption|].
      rewrite (handleReq_loop_done r req w (started r w) (Z.of_nat (length evs)) evs)
        by (try assumption; apply decodeLoop_all_logs; assumption).
      cbn zeta. unfold outcomeWorld, afterConsume. rewrite !Hc. apply failRequest_returns; reflexivity.
    + eexists. split; [eapply handles_accepted; eassumption|].
      rewrite (handleReq_loop_done r req w (started r w) (Z.of_nat (length evs)) evs)
        by (try assumption; apply decodeLoop_all_logs; assumption).
      cbn zeta. unfold outcomeWorld, afterConsume. rewrite !Hc. reflexivity.
  - eexists. split; [eapply handles_metric; eassumption|].
    apply handleReq_loop_failed; try assumption.
    apply (decodeLoop_metric r evs msg rest); assumption.
  - eexists. split; [eapply handles_malformed; eassumption|].
    apply handleReq_loop_failed; try assumption.
    apply (decodeLoop_malformed r evs e rest); assumption.
Qed.

(** [handles] describes the handler completely: on every request and
    world, [handleReq] ends in the world of an outcome [handles] allows. *)
Theorem handleReq_outcome (r : splunkReceiver) (req : Request) (w : World) :
  ∃ o, handles r req o ∧ handleReq r req w = (inl tt, outcomeWorld r o w).
Proof.
  destruct (decide (Method req = http.MethodPost)) as [Hm|Hm].
  2:{ eexists; split; [apply handles_invalid_method; assumption|].
      rewrite handleReq_invalid_method by assumption. apply failRequest_returns; reflexivity. }
  destruct (decide (http.Header_Get (Header req) httpContentTypeHeader = jsonContentType))
    as [Hct|Hct].
  2:{ eexists; split; [apply handles_invalid_content_type; assumption|].
      rewrite handleReq_invalid_content_type by assumption. apply failRequest_returns; reflexivity. }
  destruct (decide (http.Header_Get (Header req) httpContentEncodingHeader = "")) as [He|He].
  { apply handled_past_checks; [repeat split; auto|].
    intros Hg. rewrite He in Hg. discriminate. }
  destruct (decide (http.Header_Get (Header req) httpContentEncodingHeader = gzipEncoding))
    as [Hg|Hg].
  2:{ eexists; split; [apply handles_invalid_encoding; assumption|].
      rewrite handleReq_invalid_encoding by assumption. apply failRequest_returns; reflexivity. }
  destruct (NewReaderErr (Body req)) as [e|] eqn:Hr.
  - eexists; split; [apply (handles_gzip_error r req e); [repeat split; auto|assumption..]|].
    rewrite (handleReq_gzip_error r req e) by assumption. apply failRequest_returns; reflexivity.
  - apply handled_past_checks; [repeat split; auto|]. intros _. assumption.
Qed.

(** The outcome of a request is determined by the request. *)
Lemma handles_serve (r : splunkReceiver) (req : Request) (connErr : option error) :
  ∃ o, handles r req o ∧ serve r req connErr = outcomeWorld r o (newWorld connErr).
Proof.
  destruct (handleReq_outcome r req (newWorld connErr)) as (o & Ho & Heq).
  exists o. split; [assumption|]. unfold serve. rewrite Heq. reflexivity.
Qed.

End Outcomes.

(** ** What an outcome leaves in the world *)

Section OutcomeWorld.
Context `{Externals}.
Variables (r : splunkReceiver) (connErr : option error).

Lemma started_fresh : http.statusCode (resp (started r (newWorld connErr))) = None.
Proof. reflexivity. Qed.

Lemma outcomeWorld_consumed (o : Outcome) :
  consumed (outcomeWorld r o (newWorld connErr)) =
  match o with
  | Accepted ld _ | DownstreamFailed ld _ _ => [ld]
  | AcceptedEmpty | Rejected _ _ _ => []
  end.
Proof.
  destruct o; cbn [outcomeWorld]; rewrite ?failRequest_consumed; reflexivity.
Qed.

Lemma outcomeWorld_span (o : Outcome) :
  (∀ code body err, o = Rejected code body err → http.checkWriteHeaderCode code = true) →
  span (outcomeWorld r o (newWorld connErr)) =
  span (started r (newWorld connErr)) ++
  match o with
  | AcceptedEmpty => []
  | Accepted ld n => [EndMetricsReceiveOp typeStr n n (logConsumer r ld)]
  | Rejected code body err =>
      [AddAttributes code body;
       SetStatus {| trace.Code := if decide (code = http.StatusInternalServerError)
                                  then trace.StatusCodeInternal
                                  else trace.StatusCodeInvalidArgument;
                    trace.Message := default "" err |};
       End_]
  | DownstreamFailed ld n e =>
      [EndMetricsReceiveOp typeStr n n (logConsumer r ld);
       AddAttributes http.StatusInternalServerError errNextConsumerRespBody;
       SetStatus {| trace.Code := trace.StatusCodeInternal; trace.Message := e |};
       End_]
  end.
Proof.
  intros Hcode. destruct o as [|ld n|code body err|ld n e]; cbn [outcomeWorld].
  - reflexivity.
  - reflexivity.
  - rewrite failRequest_span by (eapply Hcode; reflexivity). reflexivity.
  - rewrite failRequest_span by reflexivity. reflexivity.
Qed.

Lemma outcomeWorld_resp (o : Outcome) :
  (∀ code body err, o = Rejected code body err →
     (0 < String.length body)%nat ∧ codeWithBody code) →
  http.statusCode (resp (outcomeWorld r o (newWorld connErr))) =
    Some match o with
         | AcceptedEmpty => http.StatusOK
         | Accepted _ _ => http.StatusAccepted
         | Rejected code _ _ => code
         | DownstreamFailed _ _ _ => http.StatusInternalServerError
         end ∧
  http.written (resp (outcomeWorld r o (newWorld connErr))) =
    [match o with
     | AcceptedEmpty | Accepted _ _ => okRespBody
     | Rejected _ body _ => body
     | DownstreamFailed _ _ _ => errNextConsumerRespBody
     end].
Proof.
  intros Hok. destruct o as [|ld n|code body err|ld n e]; cbn [outcomeWorld].
  - split; reflexivity.
  - split; reflexivity.
  - destruct (Hok code body err eq_refl) as (Hlen & Hcode & Hbody).
    apply (failRequest_resp r code body err (started r (newWorld connErr)));
      [reflexivity|assumption..].
  - apply (failRequest_resp r _ _ _ (afterConsume r ld n (started r (newWorld connErr))));
      [reflexivity|vm_compute; lia|reflexivity|reflexivity].
Qed.

(** The rejections of [handleReq] carry a body that is not empty and a
    code that [WriteHeader] accepts and that allows a body. *)
Lemma handles_rejection (req : Request) (code : Z) (body : string) (err : option error) :
  handles r req (Rejected code body err) →
  (0 < String.length body)%nat ∧ codeWithBody code.
Proof. inversion 1; subst; (split; [vm_compute; lia|split; reflexivity]). Qed.

End OutcomeWorld.

Section Soundness.
Context `{Externals}.
Variables (r : splunkReceiver) (req : Request).

(** Every outcome [handles] allows is the one the handler takes. *)
Lemma handles_sound (o : Outcome) (w : World) :
  handles r req o → handleReq r req w = (inl tt, outcomeWorld r o w).
Proof.
  intros Ho.
  destruct Ho as [Hm|Hm Hct|Hm Hct He1 He2|e (Hm & Hct & Henc) Hg Hr|Hv Hgz Hcl
                 |evs e rest Hv Hgz Hcl Hb Hevs|evs msg rest Hv Hgz Hcl Hb Hevs Hmsg
                 |evs Hv Hgz Hcl Hb Hevs Hc|evs e Hv Hgz Hcl Hb Hevs Hc];
    cbn [outcomeWorld].
  - rewrite handleReq_invalid_method by assumption. apply failRequest_returns; reflexivity.
  - rewrite handleReq_invalid_content_type by assumption. apply failRequest_returns; reflexivity.
  - rewrite handleReq_invalid_encoding by assumption. apply failRequest_returns; reflexivity.
  - rewrite (handleReq_gzip_error r req e) by assumption. apply failRequest_returns; reflexivity.
  - apply handleReq_empty; assumption.
  - apply handleReq_loop_failed; try assumption.
    apply (decodeLoop_malformed r evs e rest); assumption.
  - apply handleReq_loop_failed; try assumption.
    apply (decodeLoop_metric r evs msg rest); assumption.
  - rewrite (handleReq_loop_done r req w (started r w) (Z.of_nat (length evs)) evs)
      by (try assumption; apply decodeLoop_all_logs; assumption).
    cbn zeta. unfold afterConsume. rewrite !Hc. reflexivity.
  - rewrite (handleReq_loop_done r req w (started r w) (Z.of_nat (length evs)) evs)
      by (try assumption; apply decodeLoop_all_logs; assumption).
    cbn zeta. unfold afterConsume. rewrite !Hc. apply failRequest_returns; reflexivity.
Qed.

Lemma serve_outcome (o : Outcome) (connErr : option error) :
  handles r req o → serve r req connErr = outcomeWorld r o (newWorld connErr).
Proof. intros Ho. unfold serve. rewrite (handles_sound o) by assumption. reflexivity. Qed.

(** Status line, body and consumer calls of a request with outcome [o]. *)
Lemma serve_response (o : Outcome) (connErr : option error) :
  handles r req o →
  http.statusCode (resp (serve r req connErr)) =
    Some match o with
         | AcceptedEmpty => http.StatusOK
         | Accepted _ _ => http.StatusAccepted
         | Rejected code _ _ => code
         | DownstreamFailed _ _ _ => http.StatusInternalServerError
         end ∧
  http.written (resp (serve r req connErr)) =
    [match o with
     | AcceptedEmpty | Accepted _ _ => okRespBody
     | Rejected _ body _ => body
     | DownstreamFailed _ _ _ => errNextConsumerRespBody
     end] ∧
  consumed (serve r req connErr) =
    match o with
    | Accepted ld _ | DownstreamFailed ld _ _ => [ld]
    | AcceptedEmpty | Rejected _ _ _ => []
    end.
Proof.
  intros Ho. rewrite (serve_outcome o) by assumption.
  destruct (outcomeWorld_resp r connErr o) as [Hs Hw].
  { intros code body err ->. eapply handles_rejection; eassumption. }
  rewrite Hs, Hw, outcomeWorld_consumed. repeat split.
Qed.

(** The span operations of a request with outcome [o]. *)
Lemma serve_span (o : Outcome) (connErr : option error) :
  handles r req o →
  span (serve r req connErr) =
  span (started r (newWorld connErr)) ++
  match o with
  | AcceptedEmpty => []
  | Accepted ld n => [EndMetricsReceiveOp typeStr n n (logConsumer r ld)]
  | Rejected code body err =>
      [AddAttributes code body;
       SetStatus {| trace.Code := if decide (code = http.StatusInternalServerError)
                                  then trace.StatusCodeInternal
                                  else trace.StatusCodeInvalidArgument;
                    trace.Message := default "" err |};
       End_]
  | DownstreamFailed ld n e =>
      [EndMetricsReceiveOp typeStr n n (logConsumer r ld);
       AddAttributes http.StatusInternalServerError errNextConsumerRespBody;
       SetStatus {| trace.Code := trace.StatusCodeInternal; trace.Message := e |};
       End_]
  end.
Proof.
  intros Ho. rewrite (serve_outcome o) by assumption.
  apply outcomeWorld_span.
  intros code body err ->. eapply handles_rejection; eassumption.
Qed.

End Soundness.

(** ** Request validation *)

Section Validation.
Context `{Externals}.
Variables (r : splunkReceiver) (req : Request) (connErr : option error).

(** C5: the header checks reject in the order method, content type, content
    encoding.  A method other than POST gives 400 with the invalid-method
    body whatever the other headers are; a POST whose Content-Type is not
    application/json gives 415 with the invalid-content-type body whatever
    the encoding is, and the answer does not depend on the body or its
    declared length; a POST of JSON whose Content-Encoding is neither empty
    nor gzip gives 415 with the invalid-encoding body.  No batch reaches the
    consumer in any of the three cases. *)
Theorem validation_rejects_in_order :
  (Method req ≠ http.MethodPost →
   http.statusCode (resp (serve r req connErr)) = Some http.StatusBadRequest ∧
   http.written (resp (serve r req connErr)) = [invalidMethodRespBody] ∧
   consumed (serve r req connErr) = []) ∧
  (Method req = http.MethodPost →
   http.Header_Get (Header req) httpContentTypeHeader ≠ jsonContentType →
   http.statusCode (resp (serve r req connErr)) = Some http.StatusUnsupportedMediaType ∧
   http.written (resp (serve r req connErr)) = [invalidContentRespBody] ∧
   consumed (serve r req connErr) = [] ∧
   ∀ cl b, serve r (withBody req cl b) connErr = serve r req connErr) ∧
  (Method req = http.MethodPost →
   http.Header_Get (Header req) httpContentTypeHeader = jsonContentType →
   http.Header_Get (Header req) httpContentEncodingHeader ≠ "" →
   http.Header_Get (Header req) httpContentEncodingHeader ≠ gzipEncoding →
   http.statusCode (resp (serve r req connErr)) = Some http.StatusUnsupportedMediaType ∧
   http.written (resp (serve r req connErr)) = [invalidEncodingRespBody] ∧
   consumed (serve r req connErr) = []).
Proof.
  split; [|split].
  - intros Hm.
    exact (serve_response r req _ connErr (handles_invalid_method r req Hm)).
  - intros Hm Hct.
    destruct (serve_response r req _ connErr
                (handles_invalid_content_type r req Hm Hct)) as (Hs & Hw & Hc).
    repeat split; try assumption.
    intros cl b.
    rewrite (serve_outcome r req _ connErr (handles_invalid_content_type r req Hm Hct)).
    apply serve_outcome, handles_invalid_content_type; assumption.
  - intros Hm Hct He1 He2.
    exact (serve_response r req _ connErr (handles_invalid_encoding r req Hm Hct He1 He2)).
Qed.

End Validation.

Lemma validation_rejects_in_order_witness :
  (Method getRequest ≠ http.MethodPost ∧
   http.statusCode (resp (serve (H := exampleExternals) acceptingReceiver getRequest None))
     = Some 400 ∧
   http.written (resp (serve (H := exampleExternals) acceptingReceiver getRequest None))
     = [invalidMethodRespBody]) ∧
  (http.Header_Get (Header textPlainPost) httpContentTypeHeader ≠ jsonContentType ∧
   http.statusCode (resp (serve (H := exampleExternals) acceptingReceiver textPlainPost None))
     = Some 415 ∧
   http.written (resp (serve (H := exampleExternals) acceptingReceiver textPlainPost None))
     = [invalidContentRespBody]) ∧
  (http.Header_Get (Header deflatePost) httpContentEncodingHeader = "deflate" ∧
   http.statusCode (resp (serve (H := exampleExternals) acceptingReceiver deflatePost None))
     = Some 415 ∧
   http.written (resp (serve (H := exampleExternals) acceptingReceiver deflatePost None))
     = [invalidEncodingRespBody]).
Proof.
  pose proof (@validation_rejects_in_order exampleExternals acceptingReceiver) as V.
  split; [|split].
  - destruct (V getRequest None) as (V1 & _).
    split; [discriminate|]. destruct V1 as (Hs & Hw & _); [discriminate|]. split; assumption.
  - destruct (V textPlainPost None) as (_ & V2 & _).
    split; [vm_compute; discriminate|].
    destruct V2 as (Hs & Hw & _); [reflexivity|vm_compute; discriminate|]. split; assumption.
  - destruct (V deflatePost None) as (_ & _ & V3).
    split; [reflexivity|].
    destruct V3 as (Hs & Hw & _);
      [reflexivity|reflexivity|vm_compute; discriminate|vm_compute; discriminate|].
    split; assumption.
Defined.

(** ** The decoding loop inside the handler *)

Section Decoding.
Context `{Externals}.
Variables (r : splunkReceiver) (req : Request) (connErr : option error).

(** C1, amended: a request that passes the header checks, whose gzip reader
    (if any) is created, that declares a length other than 0, and in whose
    body every value before the first metric event decodes to a log event
    (so that the decoder reads on to the metric event),
    is answered with 400 and the unsupported-metric body, and no batch
    reaches the consumer, whatever follows the metric event. *)
Theorem metric_event_rejects_request (evs : list Event) (msg : Event)
    (rest : list DecodeResult) :
  passesValidation req → gzipReaderOk req → ContentLength req ≠ 0 →
  Values (Body req) = map Decoded evs ++ Decoded msg :: rest →
  Forall (fun ev => IsMetric ev = false) evs →
  IsMetric msg = true →
  http.statusCode (resp (serve r req connErr)) = Some http.StatusBadRequest ∧
  http.written (resp (serve r req connErr)) = [errUnsupportedMetricEvent] ∧
  consumed (serve r req connErr) = [].
Proof.
  intros Hv Hgz Hcl Hb Hevs Hm.
  exact (serve_response r req _ connErr
           (handles_metric r req evs msg rest Hv Hgz Hcl Hb Hevs Hm)).
Qed.


End Decoding.

Lemma chunkedPost_passes (vals : list DecodeResult) :
  passesValidation (chunkedPost vals) ∧ gzipReaderOk (chunkedPost vals) ∧
  ContentLength (chunkedPost vals) ≠ 0.
Proof.
  split; [|split].
  - split; [reflexivity|]. split; [reflexivity|]. left. reflexivity.
  - intros Hg. vm_compute in Hg. discriminate.
  - discriminate.
Defined.

Lemma metric_event_rejects_request_witness :
  http.statusCode (resp (serve (H := exampleExternals) acceptingReceiver logThenMetricPost None))
    = Some 400 ∧
  http.written (resp (serve (H := exampleExternals) acceptingReceiver logThenMetricPost None))
    = [errUnsupportedMetricEvent] ∧
  consumed (serve (H := exampleExternals) acceptingReceiver logThenMetricPost None) = [].
Proof.
  destruct (chunkedPost_passes (Values (Body logThenMetricPost))) as (Hv & Hgz & Hcl).
  apply (@metric_event_rejects_request exampleExternals acceptingReceiver logThenMetricPost
           None [exampleEvent (RString "started")] (exampleEvent (RString "metric"))
           [DecodeErr "unexpected EOF"] Hv Hgz Hcl).
  - reflexivity.
  - repeat constructor.
  - reflexivity.
Defined.


(** C1 as stated fails: a body whose first value does not decode and whose
    second value is a metric event contains a metric event, and the request
    is answered with the unmarshal-failure body. *)
Lemma metric_after_malformed_counterexample :
  passesValidation malformedThenMetricPost ∧
  Exists (isMetricEvent (H := exampleExternals)) (Values (Body malformedThenMetricPost)) ∧
  http.written (resp (serve (H := exampleExternals) acceptingReceiver malformedThenMetricPost None))
    = [errUnmarshalBodyRespBody] ∧
  http.written (resp (serve (H := exampleExternals) acceptingReceiver malformedThenMetricPost None))
    ≠ [errUnsupportedMetricEvent].
Proof.
  split; [apply chunkedPost_passes|]. split; [|split].
  - apply Exists_cons_tl, Exists_cons_hd. reflexivity.
  - vm_compute. reflexivity.
  - vm_compute. discriminate.
Qed.


(** ** The empty body and the empty stream *)

Section Empty.
Context `{Externals}.
Variables (r : splunkReceiver) (req : Request) (connErr : option error).

(** C4, amended: a request that passes the method, content-type and
    encoding checks, whose gzip reader is created when the encoding is
    gzip, and that declares a length of 0 is answered with 200 and the OK
    body; the consumer is not called, and the answer is the same whatever
    the metric discriminant is. *)
Theorem empty_body_accepted :
  passesValidation req → gzipReaderOk req → ContentLength req = 0 →
  http.statusCode (resp (serve r req connErr)) = Some http.StatusOK ∧
  http.written (resp (serve r req connErr)) = [okRespBody] ∧
  consumed (serve r req connErr) = [] ∧
  ∀ E : Externals, serve (H := E) r req connErr = serve (H := H) r req connErr.
Proof.
  intros Hv Hgz Hcl.
  destruct (serve_response r req _ connErr (handles_empty r req Hv Hgz Hcl))
    as (Hs & Hw & Hc).
  split; [assumption|split; [assumption|split; [assumption|]]].
  intros E.
  rewrite (serve_outcome (H := H) r req _ connErr (handles_empty (H := H) r req Hv Hgz Hcl)).
  rewrite (serve_outcome (H := E) r req _ connErr (handles_empty (H := E) r req Hv Hgz Hcl)).
  reflexivity.
Qed.

(** The batch built around a slice has one resource entry with one
    instrumentation-library entry, which holds the slice. *)
Lemma newLogs_shape (logSlice : pdata.LogSlice) :
  ∃ res,
    newLogs r req logSlice =
    {| pdata.ld_ResourceLogs :=
         [ {| pdata.rl_Resource := res;
              pdata.rl_InstrumentationLibraryLogs := [ {| pdata.ill_Logs := logSlice |} ] |} ] |}.
Proof. unfold newLogs. eexists. cbn. reflexivity. Qed.

Lemma newLogs_count (logSlice : pdata.LogSlice) :
  pdata.LogRecordCount (newLogs r req logSlice) = length logSlice.
Proof.
  destruct (newLogs_shape logSlice) as (res & ->).
  unfold pdata.LogRecordCount. cbn. lia.
Qed.

(** C10, amended: a request that passes the header checks, whose gzip
    reader is created when the encoding is gzip, that declares a length
    other than 0 and whose stream holds no JSON value, has a batch without
    log records built and handed to the consumer, and is answered with 202
    and the OK body when the consumer succeeds. *)
Theorem empty_stream_reaches_consumer :
  passesValidation req → gzipReaderOk req → ContentLength req ≠ 0 →
  Values (Body req) = [] →
  consumed (serve r req connErr) = [newLogs r req []] ∧
  pdata.LogRecordCount (newLogs r req []) = 0%nat ∧
  (logConsumer r (newLogs r req []) = None →
   http.statusCode (resp (serve r req connErr)) = Some http.StatusAccepted ∧
   http.written (resp (serve r req connErr)) = [okRespBody]).
Proof.
  intros Hv Hgz Hcl Hb.
  split; [|split].
  - destruct (logConsumer r (newLogs r req [])) as [e|] eqn:Hc.
    + apply (serve_response r req _ connErr
               (handles_downstream_failed r req [] e Hv Hgz Hcl Hb (List.Forall_nil _) Hc)).
    + apply (serve_response r req _ connErr
               (handles_accepted r req [] Hv Hgz Hcl Hb (List.Forall_nil _) Hc)).
  - apply newLogs_count.
  - intros Hc.
    destruct (serve_response r req _ connErr
                (handles_accepted r req [] Hv Hgz Hcl Hb (List.Forall_nil _) Hc))
      as (Hs & Hw & _).
    split; assumption.
Qed.

End Empty.

Lemma emptyPost_passes :
  passesValidation emptyPost ∧ gzipReaderOk emptyPost ∧ ContentLength emptyPost = 0.
Proof.
  split; [|split].
  - split; [reflexivity|]. split; [reflexivity|]. left. reflexivity.
  - intros Hg. vm_compute in Hg. discriminate.
  - reflexivity.
Defined.

Lemma empty_body_accepted_witness :
  http.statusCode (resp (serve (H := exampleExternals) acceptingReceiver emptyPost None))
    = Some 200 ∧
  http.written (resp (serve (H := exampleExternals) acceptingReceiver emptyPost None))
    = [okRespBody] ∧
  consumed (serve (H := exampleExternals) acceptingReceiver emptyPost None) = [].
Proof.
  destruct emptyPost_passes as (Hv & Hgz & Hcl).
  destruct (@empty_body_accepted exampleExternals acceptingReceiver emptyPost None Hv Hgz Hcl)
    as (Hs & Hw & Hc & _).
  repeat split; assumption.
Defined.

(** C4 as stated fails: a gzip-encoded POST with [Content-Length: 0] passes
    the three header checks, and is answered with 400 and the gzip-error
    body, because the gzip reader is created before the length is looked
    at and finds no header in the empty body. *)
Lemma empty_gzip_body_counterexample :
  passesValidation (emptyGzipPost 0) ∧
  ContentLength (emptyGzipPost 0) = 0 ∧
  http.statusCode (resp (serve (H := exampleExternals) acceptingReceiver (emptyGzipPost 0) None))
    = Some 400 ∧
  http.written (resp (serve (H := exampleExternals) acceptingReceiver (emptyGzipPost 0) None))
    = [errGzipReaderRespBody].
Proof.
  split; [|split; [|split]].
  - split; [reflexivity|]. split; [reflexivity|]. right. reflexivity.
  - reflexivity.
  - vm_compute. reflexivity.
  - vm_compute. reflexivity.
Qed.

Lemma empty_stream_reaches_consumer_witness :
  consumed (serve (H := exampleExternals) acceptingReceiver (chunkedPost []) None)
    = [newLogs (H := exampleExternals) acceptingReceiver (chunkedPost []) []] ∧
  http.statusCode (resp (serve (H := exampleExternals) acceptingReceiver (chunkedPost []) None))
    = Some 202 ∧
  http.written (resp (serve (H := exampleExternals) acceptingReceiver (chunkedPost []) None))
    = [okRespBody].
Proof.
  destruct (chunkedPost_passes []) as (Hv & Hgz & Hcl).
  destruct (@empty_stream_reaches_consumer exampleExternals acceptingReceiver (chunkedPost [])
              None Hv Hgz Hcl eq_refl) as (Hc & _ & Hok).
  destruct (Hok eq_refl) as (Hs & Hw).
  repeat split; assumption.
Defined.

(** C10 as stated fails: a gzip-encoded POST with chunked transfer encoding
    and no body byte passes the header checks, declares no length and holds
    no JSON value; it is answered with 400 and no batch reaches the
    consumer. *)
Lemma empty_gzip_stream_counterexample :
  passesValidation (emptyGzipPost (-1)) ∧
  ContentLength (emptyGzipPost (-1)) ≠ 0 ∧
  Values (Body (emptyGzipPost (-1))) = [] ∧
  http.statusCode (resp (serve (H := exampleExternals) acceptingReceiver (emptyGzipPost (-1)) None))
    = Some 400 ∧
  consumed (serve (H := exampleExternals) acceptingReceiver (emptyGzipPost (-1)) None) = [].
Proof.
  split; [|split; [|split; [|split]]].
  - split; [reflexivity|]. split; [reflexivity|]. right. reflexivity.
  - discriminate.
  - reflexivity.
  - vm_compute. reflexivity.
  - vm_compute. reflexivity.
Qed.

(** ** The batch and the consumer *)

Section Batch.
Context `{Externals}.
Variables (r : splunkReceiver) (req : Request) (connErr : option error).

Lemma map_Decoded_inj (evs evs' : list Event) :
  map Decoded evs = map Decoded evs' → evs = evs'.
Proof.
  revert evs'. induction evs as [|e evs IH]; intros [|e' evs'] Heq;
    try discriminate; [reflexivity|].
  cbn in Heq. injection Heq as -> Heq. f_equal. apply IH. assumption.
Qed.

(** The batches of a request: none, or the one built from the events of its
    body. *)
Lemma consumed_cases :
  consumed (serve r req connErr) = [] ∨
  ∃ evs, Values (Body req) = map Decoded evs ∧
         passesValidation req ∧ gzipReaderOk req ∧ ContentLength req ≠ 0 ∧
         Forall (fun ev => IsMetric ev = false) evs ∧
         consumed (serve r req connErr) = [newLogs r req (map eventToLogRecord evs)] ∧
         handles r req
           match logConsumer r (newLogs r req (map eventToLogRecord evs)) with
           | Some e => DownstreamFailed (newLogs r req (map eventToLogRecord evs))
                                        (Z.of_nat (length evs)) e
           | None => Accepted (newLogs r req (map eventToLogRecord evs))
                              (Z.of_nat (length evs))
           end.
Proof.
  destruct (handles_serve r req connErr) as (o & Ho & Heq).
  rewrite Heq, outcomeWorld_consumed.
  destruct Ho as [| | | | | | |evs Hv Hgz Hcl Hb Hevs Hc|evs e Hv Hgz Hcl Hb Hevs Hc];
    try (left; reflexivity); right; exists evs; rewrite Hc;
    repeat (split; [assumption|]); (split; [reflexivity|]).
  - apply handles_accepted; assumption.
  - apply handles_downstream_failed; assumption.
Qed.

(** C2: for a request whose body decodes to the log events [evs], every
    batch the handler assembles has exactly one resource entry, exactly one
    scope under it, and in that scope one log record per event, in the
    order of the body; and such a batch is assembled once the request is
    past the header checks, the gzip reader and the zero-length test. *)
Theorem batch_has_one_record_per_event (evs : list Event) :
  Values (Body req) = map Decoded evs →
  Forall (fun ev => IsMetric ev = false) evs →
  (∀ ld, ld ∈ consumed (serve r req connErr) →
     pdata.LogRecordCount ld = length evs ∧
     ∃ res, ld =
       {| pdata.ld_ResourceLogs :=
            [ {| pdata.rl_Resource := res;
                 pdata.rl_InstrumentationLibraryLogs :=
                   [ {| pdata.ill_Logs := map eventToLogRecord evs |} ] |} ] |}) ∧
  (passesValidation req → gzipReaderOk req → ContentLength req ≠ 0 →
   consumed (serve r req connErr) = [newLogs r req (map eventToLogRecord evs)]).
Proof.
  intros Hb Hevs. split.
  - intros ld Hld.
    destruct consumed_cases as [Hnone|(evs' & Hb' & _ & _ & _ & _ & Hc & _)].
    { rewrite Hnone in Hld. apply elem_of_nil in Hld. contradiction. }
    rewrite Hb in Hb'. apply map_Decoded_inj in Hb'. subst evs'.
    rewrite Hc in Hld. apply list_elem_of_singleton in Hld. subst ld.
    split.
    + rewrite newLogs_count. apply length_map.
    + apply newLogs_shape.
  - intros Hv Hgz Hcl.
    destruct (logConsumer r (newLogs r req (map eventToLogRecord evs))) as [e|] eqn:Hc.
    + apply (serve_response r req _ connErr
               (handles_downstream_failed r req evs e Hv Hgz Hcl Hb Hevs Hc)).
    + apply (serve_response r req _ connErr
               (handles_accepted r req evs Hv Hgz Hcl Hb Hevs Hc)).
Qed.

(** C6: when a batch is handed to the consumer and the consumer returns an
    error for it, the request is answered with 500 and the
    internal-server-error body, the consumer was called once and not
    again, and the one status the handler sets on the span has the code
    internal, not invalid-argument. *)
Theorem consumer_failure_is_internal_error (ld : pdata.Logs) (e : error) :
  ld ∈ consumed (serve r req connErr) →
  logConsumer r ld = Some e →
  http.statusCode (resp (serve r req connErr)) = Some http.StatusInternalServerError ∧
  http.written (resp (serve r req connErr)) = [errNextConsumerRespBody] ∧
  consumed (serve r req connErr) = [ld] ∧
  statusCodesSet (serve r req connErr) = [trace.StatusCodeInternal].
Proof.
  intros Hld He.
  destruct consumed_cases as [Hnone|(evs & _ & _ & _ & _ & _ & Hc & Ho)].
  { rewrite Hnone in Hld. apply elem_of_nil in Hld. contradiction. }
  rewrite Hc in Hld. apply list_elem_of_singleton in Hld. subst ld.
  rewrite He in Ho.
  destruct (serve_response r req _ connErr Ho) as (Hs & Hw & Hcs).
  repeat (split; [assumption|]).
  unfold statusCodesSet. rewrite (serve_span r req _ connErr Ho).
  reflexivity.
Qed.

End Batch.

Lemma batch_has_one_record_per_event_witness :
  consumed (serve (H := exampleExternals) acceptingReceiver twoLogsPost None) =
    [newLogs (H := exampleExternals) acceptingReceiver twoLogsPost
       [eventToLogRecord (exampleEvent (RString "started"));
        eventToLogRecord (exampleEvent (RString "stopped"))]] ∧
  ∀ ld, ld ∈ consumed (serve (H := exampleExternals) acceptingReceiver twoLogsPost None) →
        pdata.LogRecordCount ld = 2%nat.
Proof.
  destruct (chunkedPost_passes (Values (Body twoLogsPost))) as (Hv & Hgz & Hcl).
  destruct (@batch_has_one_record_per_event exampleExternals acceptingReceiver twoLogsPost None
              [exampleEvent (RString "started"); exampleEvent (RString "stopped")]
              eq_refl) as (Hall & Hone).
  - repeat constructor.
  - split.
    + apply Hone; assumption.
    + intros ld Hld. apply Hall. assumption.
Defined.

Lemma consumer_failure_is_internal_error_witness :
  http.statusCode (resp (serve (H := exampleExternals) failingReceiver twoLogsPost None))
    = Some 500 ∧
  http.written (resp (serve (H := exampleExternals) failingReceiver twoLogsPost None))
    = [errNextConsumerRespBody] ∧
  length (consumed (serve (H := exampleExternals) failingReceiver twoLogsPost None)) = 1%nat ∧
  statusCodesSet (serve (H := exampleExternals) failingReceiver twoLogsPost None)
    = [trace.StatusCodeInternal].
Proof.
  assert (Hc : consumed (serve (H := exampleExternals) failingReceiver twoLogsPost None) =
               [newLogs (H := exampleExternals) failingReceiver twoLogsPost
                  (map eventToLogRecord
                     [exampleEvent (RString "started"); exampleEvent (RString "stopped")])])
    by (vm_compute; reflexivity).
  destruct (@consumer_failure_is_internal_error exampleExternals failingReceiver twoLogsPost
              None _ "consumer unavailable"
              (eq_ind_r (fun l => _ ∈ l) (list_elem_of_here _ _) Hc) eq_refl)
    as (Hs & Hw & Hone & Hst).
  split; [assumption|]. split; [assumption|]. split; [rewrite Hone; reflexivity|assumption].
Defined.

(** ** One response, one span *)

Section Completion.
Context `{Externals}.
Variables (r : splunkReceiver) (req : Request) (connErr : option error).

(** Every request gets exactly one body write. *)
Lemma one_response_write : length (http.written (resp (serve r req connErr))) = 1%nat.
Proof.
  destruct (handles_serve r req connErr) as (o & Ho & _).
  destruct (serve_response r req o connErr Ho) as (_ & Hw & _).
  rewrite Hw. reflexivity.
Qed.

(** The OK body is written for the accepted outcomes only, so never next to
    a failure body. *)
Lemma success_or_failure_body (o : Outcome) :
  handles r req o →
  http.written (resp (serve r req connErr)) = [okRespBody] ↔
  (o = AcceptedEmpty ∨ ∃ ld n, o = Accepted ld n).
Proof.
  intros Ho. destruct (serve_response r req o connErr Ho) as (_ & Hw & _). rewrite Hw.
  split.
  - intros Heq. destruct Ho; try (vm_compute in Heq; discriminate);
      [left; reflexivity|right; eauto].
  - intros [->|(ld & n & ->)]; reflexivity.
Qed.

(** The number of operations that end the span, by outcome: none for the
    zero-length body, two when the consumer fails, one otherwise. *)
Lemma span_completions_by_outcome (o : Outcome) :
  handles r req o →
  spanCompletions (serve r req connErr) =
  match o with
  | AcceptedEmpty => 0%nat
  | Accepted _ _ | Rejected _ _ _ => 1%nat
  | DownstreamFailed _ _ _ => 2%nat
  end.
Proof.
  intros Ho. unfold spanCompletions.
  rewrite (serve_span r req o connErr Ho).
  destruct o; reflexivity.
Qed.

(** C8 on the zero-length path: a request that passes the header checks and
    declares a length of 0 has the OK body written once, and the span that
    was started for it is left without any operation that ends it. *)
Theorem empty_body_leaves_span_open :
  passesValidation req → gzipReaderOk req → ContentLength req = 0 →
  http.written (resp (serve r req connErr)) = [okRespBody] ∧
  span (serve r req connErr) =
    [StartMetricsReceiveOp (Name (config r))
       match TLSSetting (config r) with Some _ => "https" | None => "http" end] ∧
  spanCompletions (serve r req connErr) = 0%nat.
Proof.
  intros Hv Hgz Hcl.
  pose proof (handles_empty r req Hv Hgz Hcl) as Ho.
  destruct (serve_response r req _ connErr Ho) as (_ & Hw & _).
  split; [assumption|]. split.
  - rewrite (serve_span r req _ connErr Ho). reflexivity.
  - apply (span_completions_by_outcome _ Ho).
Qed.

End Completion.

Lemma empty_body_leaves_span_open_witness :
  http.written (resp (serve (H := exampleExternals) acceptingReceiver emptyPost None))
    = [okRespBody] ∧
  span (serve (H := exampleExternals) acceptingReceiver emptyPost None)
    = [StartMetricsReceiveOp "splunk_hec" "http"] ∧
  spanCompletions (serve (H := exampleExternals) acceptingReceiver emptyPost None) = 0%nat.
Proof.
  destruct emptyPost_passes as (Hv & Hgz & Hcl).
  exact (@empty_body_leaves_span_open exampleExternals acceptingReceiver emptyPost None
           Hv Hgz Hcl).
Defined.

(** ** The conversion from raw values *)

(** Induction over raw values that reaches into mappings and sequences. *)
Lemma Raw_nested_ind (P : Raw → Prop) :
  (∀ iv, (∀ kvs, iv ≠ RMap kvs) → (∀ vs, iv ≠ RSlice vs) → P iv) →
  (∀ kvs, Forall (fun kv => P (snd kv)) kvs → P (RMap kvs)) →
  (∀ vs, Forall P vs → P (RSlice vs)) →
  ∀ iv, P iv.
Proof.
  intros Hleaf Hmap Hslice. fix IH 1.
  intros [ |s|k n|k n|k bits|b|bs|kvs|vs|t]; try (apply Hleaf; discriminate).
  - apply Hmap. revert kvs. fix IHl 1. intros [|[k v] kvs].
    + constructor.
    + constructor; [apply IH|apply IHl].
  - apply Hslice. revert vs. fix IHl 1. intros [|v vs].
    + constructor.
    + constructor; [apply IH|apply IHl].
Qed.

(** The rows of the repository's test pass on the model. *)
Example Test_newValueFromRaw : forallb testPasses tests = true.
Proof. reflexivity. Qed.

(** C7: the conversion succeeds on every supported raw value, and on every
    other value it returns an error together with the empty value, also
    when the unsupported value sits inside a mapping or a sequence. *)
Theorem newValueFromRaw_supported_or_empty (iv : Raw) :
  (supported iv = true → ∃ v, newValueFromRaw iv = (v, None)) ∧
  (supported iv = false → ∃ e, newValueFromRaw iv = (ValueEmpty, Some e)).
Proof.
  induction iv as [iv Hm Hs|kvs IH|vs IH] using Raw_nested_ind.
  - destruct iv; try (exfalso; eapply Hm; reflexivity);
      try (exfalso; eapply Hs; reflexivity);
      cbn; split; intros Hsup; try discriminate; eauto.
  - cbn [newValueFromRaw supported].
    match goal with
    | |- context [match ?f kvs with _ => _ end] => set (entries := f)
    end.
    match goal with
    | |- context [?f kvs = true] => set (all := f)
    end.
    assert (Haux : (all kvs = true → ∃ m, entries kvs = (m, None)) ∧
                   (all kvs = false → ∃ e, entries kvs = ([], Some e))).
    { induction IH as [|[k v] kvs [Hv1 Hv2] _ [IH1 IH2]]; cbn.
      - split; intros; [eauto|discriminate].
      - cbn [snd] in Hv1, Hv2. split; intros Hsup.
        + apply andb_true_iff in Hsup as [Ha Hb].
          destruct (Hv1 Ha) as [v' ->]. destruct (IH1 Hb) as [m ->]. eauto.
        + destruct (supported v) eqn:Ha.
          * destruct (Hv1 eq_refl) as [v' ->]. destruct (IH2 Hsup) as [e ->]. eauto.
          * destruct (Hv2 eq_refl) as [e ->]. eauto. }
    destruct Haux as [H1 H2]. split; intros Hsup.
    + destruct (H1 Hsup) as [m ->]. eauto.
    + destruct (H2 Hsup) as [e ->]. eauto.
  - cbn [newValueFromRaw supported].
    match goal with
    | |- context [match ?f vs with _ => _ end] => set (elements := f)
    end.
    match goal with
    | |- context [?f vs = true] => set (all := f)
    end.
    assert (Haux : (all vs = true → ∃ s, elements vs = (s, None)) ∧
                   (all vs = false → ∃ e, elements vs = ([], Some e))).
    { induction IH as [|v vs [Hv1 Hv2] _ [IH1 IH2]]; cbn.
      - split; intros; [eauto|discriminate].
      - split; intros Hsup.
        + apply andb_true_iff in Hsup as [Ha Hb].
          destruct (Hv1 Ha) as [v' ->]. destruct (IH1 Hb) as [s ->]. eauto.
        + destruct (supported v) eqn:Ha.
          * destruct (Hv1 eq_refl) as [v' ->]. destruct (IH2 Hsup) as [e ->]. eauto.
          * destruct (Hv2 eq_refl) as [e ->]. eauto. }
    destruct Haux as [H1 H2]. split; intros Hsup.
    + destruct (H1 Hsup) as [s ->]. eauto.
    + destruct (H2 Hsup) as [e ->]. eauto.
Qed.

Lemma newValueFromRaw_supported_or_empty_witness :
  (supported nestedRaw = true ∧ ∃ v, newValueFromRaw nestedRaw = (v, None)) ∧
  (supported brokenRaw = false ∧ ∃ e, newValueFromRaw brokenRaw = (ValueEmpty, Some e)).
Proof.
  split.
  - split; [reflexivity|].
    apply (proj1 (newValueFromRaw_supported_or_empty nestedRaw)). reflexivity.
  - split; [reflexivity|].
    apply (proj2 (newValueFromRaw_supported_or_empty brokenRaw)). reflexivity.
Defined.

(** ** Shutdown *)

(** C9, amended: [Shutdown] called while the mutex is free returns: it
    closes the listener and every connection at once, releases the mutex
    and returns the error of [Close]; the handlers are where they were
    before the call, so a handler that was in flight is still in flight
    when [Shutdown] has returned. *)
Theorem Shutdown_closes_without_waiting (s : receiverState) :
  locked s = false →
  ∃ s', Shutdown s = Some (s', snd (Server_Close (server s))) ∧
        server s' = fst (Server_Close (server s)) ∧
        listening (server s') = false ∧
        Forall (fun h => connOpen h = false) (handlers (server s')) ∧
        map stage (handlers (server s')) = map stage (handlers (server s)) ∧
        map inFlight (handlers (server s')) = map inFlight (handlers (server s)) ∧
        locked s' = false.
Proof.
  intros Hl. unfold Shutdown. rewrite Hl. cbn.
  eexists. split; [reflexivity|]. cbn.
  split; [reflexivity|]. split; [reflexivity|]. split; [|split; [|split; [|reflexivity]]].
  - apply List.Forall_forall. intros h Hin. apply in_map_iff in Hin as (h0 & <- & _).
    reflexivity.
  - rewrite map_map. reflexivity.
  - rewrite map_map. reflexivity.
Qed.

Lemma Shutdown_closes_without_waiting_witness :
  locked servingOne = false ∧
  ∃ s', Shutdown servingOne = Some (s', None) ∧
        map inFlight (handlers (server s')) = [true] ∧
        Forall (fun h => connOpen h = false) (handlers (server s')).
Proof.
  split; [reflexivity|].
  destruct (Shutdown_closes_without_waiting servingOne eq_refl)
    as (s' & Hs & _ & _ & Hconn & _ & Hfl & _).
  exists s'. split; [exact Hs|]. split; [rewrite Hfl; reflexivity|exact Hconn].
Defined.

(** C9 as stated fails: with one request in its consumer call, [Shutdown]
    returns while that handler has not finished, and its connection is
    closed. *)
Lemma Shutdown_does_not_drain_counterexample :
  ∃ s', Shutdown servingOne = Some (s', None) ∧
        ¬ Forall (fun h => inFlight h = false) (handlers (server s')) ∧
        Exists (fun h => stage h = Consuming ∧ connOpen h = false) (handlers (server s')).
Proof.
  eexists. split; [reflexivity|]. cbn. split.
  - intros Hall. apply Forall_cons_1 in Hall as [Hh _]. discriminate.
  - apply Exists_cons_hd. split; reflexivity.
Qed.

(** * Further properties of the receiver *)

(** ** [New], [Start] and [Shutdown] together *)

(** [New] returns either a receiver or an error, never both and never
    neither: the nil consumer is reported first, then the empty endpoint;
    the receiver it returns holds the configuration and the consumer, and
    its server, not yet serving, has the endpoint as address and both
    timeouts at twenty seconds. *)
Theorem New_receiver_or_error (cfg : Config) (nextConsumer : option (pdata.Logs → option error)) :
  match New cfg nextConsumer with
  | (Some r, None) =>
      Endpoint cfg ≠ "" ∧
      (∃ c, nextConsumer = Some c ∧ handler r = {| config := cfg; logConsumer := c |}) ∧
      settings r = {| Addr := Endpoint cfg; ReadHeaderTimeout := 20000000000;
                      WriteTimeout := 20000000000 |} ∧
      locked (lifecycle r) = false ∧ listening (server (lifecycle r)) = false
  | (None, Some e) =>
      (nextConsumer = None ∧ e = errNilNextConsumer) ∨
      (nextConsumer ≠ None ∧ Endpoint cfg = "" ∧ e = errEmptyEndpoint)
  | _ => False
  end.
Proof.
  unfold New. destruct nextConsumer as [c|]; [|left; split; reflexivity].
  destruct (decide (Endpoint cfg = "")) as [He|He].
  - right. repeat split; [discriminate|assumption].
  - split; [assumption|]. split; [exists c; split; reflexivity|]. repeat split.
Qed.

(** A failed bind leaves the receiver as [New] made it: [Start] returns the
    bind error wrapped with the endpoint, the mutex is free again, and a
    later [Start] on the same receiver that can bind succeeds: it returns
    with the goroutine launched that will serve on the listener, which the
    new server does not track yet. *)
Theorem Start_can_be_retried (cfg : Config) (c : pdata.Logs → option error) (r : receiver)
    (e : error) (ln : Listener) (srv : ServerSettings) :
  New cfg (Some c) = (Some r, None) →
  Start (inr e) srv r
    = Some (r, Some ("failed to bind to address " +:+ Endpoint cfg +:+ ": " +:+ e)) ∧
  ∃ r', Start (inl ln) srv r = Some (r', None) ∧
        handler r' = handler r ∧
        serveOn r' = Some ln ∧
        listening (server (lifecycle r')) = false ∧
        locked (lifecycle r') = false ∧
        ReadHeaderTimeout (settings r') = defaultServerTimeout ∧
        WriteTimeout (settings r') = defaultServerTimeout.
Proof.
  unfold New. destruct (decide (Endpoint cfg = "")); [discriminate|].
  intros [= <-]. split; [reflexivity|]. eexists. split; [reflexivity|]. repeat split.
Qed.

Lemma Start_can_be_retried_witness :
  New exampleConfig (Some (fun _ => None)) = (Some newReceiver, None) ∧
  Start (inr "listen tcp 127.0.0.1:8088: bind: address already in use") routedServer newReceiver
    = Some (newReceiver,
            Some "failed to bind to address localhost:8088: listen tcp 127.0.0.1:8088: bind: address already in use") ∧
  Start (inl {| lnCloseErr := None |}) routedServer newReceiver = Some (startedReceiver, None).
Proof.
  split; [reflexivity|].
  destruct (Start_can_be_retried exampleConfig (fun _ => None) newReceiver
              "listen tcp 127.0.0.1:8088: bind: address already in use"
              {| lnCloseErr := None |} routedServer eq_refl) as (Hfail & _).
  split; [exact Hfail|reflexivity].
Defined.

(** ** [failRequest] on any world *)

Section FailRequestAnywhere.
Context `{Externals}.
Variables (r : splunkReceiver) (code : Z) (body : string) (err : option error).

Lemma failRequest_panics (w : World) :
  http.statusCode (resp w) = None → http.checkWriteHeaderCode code = false →
  failRequest r code body err w = (inr (InvalidWriteHeaderCode code), w).
Proof.
  intros Hfresh Hcode. destruct w as [[sc wr ce] sp cs lg]. cbn in Hfresh. subst sc.
  unfold failRequest. unfold mbind at 1, M_bind at 1.
  unfold resp_WriteHeader, http.WriteHeader. cbn [resp http.statusCode].
  rewrite Hcode. reflexivity.
Qed.

Lemma failRequest_anywhere (w : World) :
  headerAccepted code w →
  failRequest r code body err w =
  (inl tt,
   {| resp := {| http.statusCode := Some (default code (http.statusCode (resp w)));
                 http.written :=
                   http.written (resp w) ++
                   (if decide (body = "") then []
                    else if http.bodyAllowedForStatus (default code (http.statusCode (resp w)))
                         then [body] else []);
                 http.connErr := http.connErr (resp w) |};
      span := span w ++
              [AddAttributes code body;
               SetStatus {| trace.Code := if decide (code = http.StatusInternalServerError)
                                          then trace.StatusCodeInternal
                                          else trace.StatusCodeInvalidArgument;
                            trace.Message := default "" err |};
               End_];
      consumed := consumed w;
      logged := logged w ++
                match writeError code body (resp w) with
                | Some we => [Warn "Error writing HTTP response message" we (Name (config r))]
                | None => []
                end ++
                [Debug "Splunk HEC receiver request failed" code body err
                       (Name (config r))] |}).
Proof.
  intros Hok. destruct w as [[sc wr ce] sp cs lg]. unfold headerAccepted in Hok.
  cbn [resp http.statusCode] in Hok. unfold writeError.
  destruct body as [|c b].
  - run_failRequest. destruct sc as [c0|].
    + run_failRequest. destruct (decide _), err; cbn; rewrite <- ?app_assoc, ?app_nil_r;
        reflexivity.
    + destruct Hok as [Hok|Hok]; [contradiction|]. rewrite Hok. run_failRequest.
      destruct (decide _), err; cbn; rewrite <- ?app_assoc, ?app_nil_r; reflexivity.
  - destruct (decide (String c b = "")); [discriminate|].
    run_failRequest. destruct sc as [c0|].
    + run_failRequest. destruct (http.bodyAllowedForStatus c0); run_failRequest.
      * destruct ce, (decide _), err; cbn; rewrite <- ?app_assoc; reflexivity.
      * destruct (decide _), err; cbn; rewrite <- ?app_assoc, ?app_nil_r; reflexivity.
    + destruct Hok as [Hok|Hok]; [contradiction|]. rewrite Hok. run_failRequest.
      destruct (http.bodyAllowedForStatus code); run_failRequest.
      * destruct ce, (decide _), err; cbn; rewrite <- ?app_assoc; reflexivity.
      * destruct (decide _), err; cbn; rewrite <- ?app_assoc, ?app_nil_r; reflexivity.
Qed.

Lemma failRequest_logged (w : World) :
  headerAccepted code w →
  logged (snd (failRequest r code body err w)) =
  logged w ++
  match writeError code body (resp w) with
  | Some we => [Warn "Error writing HTTP response message" we (Name (config r))]
  | None => []
  end ++
  [Debug "Splunk HEC receiver request failed" code body err (Name (config r))].
Proof. intros Hok. rewrite (failRequest_anywhere w Hok). reflexivity. Qed.

(** [failRequest] in full.  On a response without header and with a code
    outside 100..999 [WriteHeader] panics and nothing else happens.
    Otherwise [failRequest] returns, and for a code from 200 on, or after a
    header was sent: it never calls the consumer; the status line it sends
    is [code] unless a header was already sent, which then stays; the body
    is written once when it is not empty and the status of the response
    allows a body (not 1xx, 204 or 304), and not at all otherwise; a failed
    or refused write is logged as a warning; the span gets the status
    attributes, a status with code internal exactly for a 500 and with the
    error's text as message, and is ended. *)
Theorem failRequest_effects (w : World) :
  (http.statusCode (resp w) = None → ¬ (100 ≤ code ≤ 999) →
   failRequest r code body err w = (inr (InvalidWriteHeaderCode code), w)) ∧
  (http.statusCode (resp w) ≠ None ∨ 200 ≤ code ≤ 999 →
   let sent := default code (http.statusCode (resp w)) in
   let w' := snd (failRequest r code body err w) in
   failRequest r code body err w = (inl tt, w') ∧
   consumed w' = consumed w ∧
   http.statusCode (resp w') = Some sent ∧
   http.written (resp w') =
     http.written (resp w) ++
     (if decide (body ≠ "" ∧ ¬ (100 ≤ sent ≤ 199) ∧ sent ≠ 204 ∧ sent ≠ 304)
      then [body] else []) ∧
   span w' =
     span w ++
     [AddAttributes code body;
      SetStatus {| trace.Code := if decide (code = 500) then trace.StatusCodeInternal
                                 else trace.StatusCodeInvalidArgument;
                   trace.Message := default "" err |};
      End_] ∧
   logged w' =
     logged w ++
     (if decide (body = "") then []
      else if decide (¬ (100 ≤ sent ≤ 199) ∧ sent ≠ 204 ∧ sent ≠ 304)
           then match http.connErr (resp w) with
                | Some we => [Warn "Error writing HTTP response message" we (Name (config r))]
                | None => []
                end
           else [Warn "Error writing HTTP response message" http.ErrBodyNotAllowed
                      (Name (config r))]) ++
     [Debug "Splunk HEC receiver request failed" code body err (Name (config r))]).
Proof.
  split.
  - intros Hfresh Hcode. apply failRequest_panics; [assumption|].
    unfold http.checkWriteHeaderCode. apply andb_false_iff.
    destruct (Z.leb_spec 100 code); [|left; reflexivity].
    destruct (Z.leb_spec code 999); [lia|right; reflexivity].
  - intros Hok.
    assert (Hacc : headerAccepted code w).
    { destruct Hok as [Hok|Hok]; [left; assumption|right].
      unfold http.checkWriteHeaderCode. apply andb_true_iff.
      split; apply Z.leb_le; lia. }
    cbn zeta. rewrite (failRequest_anywhere w Hacc). cbn [snd resp span consumed logged
      http.statusCode http.written http.connErr].
    assert (Hallowed : ∀ c, http.bodyAllowedForStatus c = true ↔
                            ¬ (100 ≤ c ≤ 199) ∧ c ≠ 204 ∧ c ≠ 304).
    { intros c. unfold http.bodyAllowedForStatus.
      rewrite negb_true_iff, !orb_false_iff, andb_false_iff, !Z.leb_gt, !Z.eqb_neq. lia. }
    split; [reflexivity|]. split; [reflexivity|]. split; [reflexivity|].
    split; [|split; [reflexivity|]].
    + f_equal. destruct (decide (body = "")) as [->|Hb].
      * destruct (decide _) as [[Hne _]|_]; [contradiction|reflexivity].
      * destruct (http.bodyAllowedForStatus _) eqn:Ha.
        -- apply Hallowed in Ha. destruct (decide _) as [_|Hn]; [reflexivity|].
           exfalso. apply Hn. split; assumption.
        -- destruct (decide _) as [[_ Hy]|_]; [|reflexivity].
           apply Hallowed in Hy. congruence.
    + f_equal. unfold writeError. destruct (decide (body = "")); [reflexivity|].
      destruct (http.bodyAllowedForStatus _) eqn:Ha.
      * apply Hallowed in Ha. destruct (decide _) as [_|Hn]; [|contradiction].
        destruct (http.connErr (resp w)); reflexivity.
      * destruct (decide _) as [Hy|_]; [|reflexivity].
        apply Hallowed in Hy. congruence.
Qed.

End FailRequestAnywhere.

Lemma failRequest_effects_witness :
  failRequest acceptingReceiver 0 invalidMethodRespBody None (newWorld None)
    = (inr (InvalidWriteHeaderCode 0), newWorld None) ∧
  http.written (resp (snd (failRequest acceptingReceiver
                             304 invalidMethodRespBody None
                             (newWorld None)))) = [] ∧
  http.written (resp (snd (failRequest acceptingReceiver
                             http.StatusBadRequest invalidMethodRespBody None
                             (newWorld None)))) = [invalidMethodRespBody].
Proof.
  split; [|split].
  - apply (proj1 (failRequest_effects acceptingReceiver 0
                    invalidMethodRespBody None (newWorld None))); [reflexivity|lia].
  - destruct (proj2 (failRequest_effects acceptingReceiver
                       304 invalidMethodRespBody None (newWorld None)))
      as (_ & _ & _ & Hw & _); [right; lia|].
    exact Hw.
  - destruct (proj2 (failRequest_effects acceptingReceiver
                       http.StatusBadRequest invalidMethodRespBody None (newWorld None)))
      as (_ & _ & _ & Hw & _); [right; unfold http.StatusBadRequest; lia|].
    exact Hw.
Defined.

(** ** [initJSONResponse] *)

Lemma encodeBytes_plain (s : string) :
  plainString s = true → json.encodeBytes s = s.
Proof.
  unfold json.encodeBytes. induction s as [|c s IH]; [reflexivity|].
  cbn [plainString json.encodeFrom]. intros Hp.
  apply andb_true_iff in Hp as [Hc Hs]. rewrite (IH Hs).
  unfold plainByte in Hc. cbn zeta in Hc. apply andb_true_iff in Hc as [Hascii Hc].
  rewrite Hascii. apply negb_true_iff in Hc.
  repeat (apply orb_false_iff in Hc as [Hc ?]).
  unfold json.encodeByte. cbn zeta.
  repeat match goal with Hx : (_ =? _)%N = false |- _ => rewrite Hx; clear Hx end.
  rewrite Hc. apply N.ltb_ge in Hc. cbn [orb].
  destruct (N.eqb_spec (N_of_ascii c) 10); [lia|].
  destruct (N.eqb_spec (N_of_ascii c) 13); [lia|].
  destruct (N.eqb_spec (N_of_ascii c) 9); [lia|].
  reflexivity.
Qed.

(** Bytes outside ASCII: a valid rune is copied, a byte that starts no
    valid encoding becomes the escape of U+FFFD, and U+2028 is escaped. *)
Example encodeBytes_valid_rune :
  json.encodeBytes (String (ascii_of_N 195) (String (ascii_of_N 169) "!"))
  = String (ascii_of_N 195) (String (ascii_of_N 169) "!").
Proof. reflexivity. Qed.

Example encodeBytes_invalid_byte :
  json.encodeBytes (String (ascii_of_N 195) "!") = "\ufffd!" ∧
  json.encodeBytes (String (ascii_of_N 255) "") = "\ufffd".
Proof. split; reflexivity. Qed.

Example encodeBytes_line_separator :
  json.encodeBytes
    (String (ascii_of_N 226) (String (ascii_of_N 128) (String (ascii_of_N 168) "x")))
  = "\u2028x".
Proof. reflexivity. Qed.

Lemma length_append_cons (x y : string) (c : ascii) :
  (1 <= String.length (x +:+ String c y))%nat.
Proof. destruct x; unfold String.app; simpl; lia. Qed.

(** Whatever the string, the response body is not empty, so the length
    guard of [failRequest] holds for it; and a string of ASCII bytes
    without control bytes, quotes, backslashes and HTML bytes is returned
    as it is between two quotes. *)
Theorem initJSONResponse_quotes (s : string) :
  (2 <= String.length (initJSONResponse s))%nat ∧
  initJSONResponse s ≠ "" ∧
  (plainString s = true → initJSONResponse s = quote +:+ s +:+ quote).
Proof.
  unfold initJSONResponse, json.Marshal. cbn iota beta zeta.
  split; [|split].
  - cbn [String.length].
    pose proof (length_append_cons (json.encodeBytes s) "" "034"%char). lia.
  - discriminate.
  - intros Hp. rewrite (encodeBytes_plain s Hp). reflexivity.
Qed.

Lemma initJSONResponse_quotes_witness :
  plainString responseErrNextConsumer = true ∧
  errNextConsumerRespBody = quote +:+ "Internal Server Error" +:+ quote.
Proof.
  split; [reflexivity|].
  apply (proj2 (proj2 (initJSONResponse_quotes responseErrNextConsumer))). reflexivity.
Defined.

(** ** More on [handleReq] *)

Section HandlerFurther.
Context `{Externals}.
Variables (r : splunkReceiver) (req : Request) (connErr : option error).

Lemma outcomeWorld_logged (o : Outcome) :
  (∀ code body err, o = Rejected code body err →
     (0 < String.length body)%nat ∧ codeWithBody code) →
  logged (outcomeWorld r o (newWorld connErr)) =
  match o with
  | AcceptedEmpty | Accepted _ _ => []
  | Rejected code body err =>
      match connErr with
      | Some we =>
          if decide (body = "") then []
          else [Warn "Error writing HTTP response message" we (Name (config r))]
      | None => []
      end ++
      [Debug "Splunk HEC receiver request failed" code body err (Name (config r))]
  | DownstreamFailed _ _ e =>
      match connErr with
      | Some we => [Warn "Error writing HTTP response message" we (Name (config r))]
      | None => []
      end ++
      [Debug "Splunk HEC receiver request failed" http.StatusInternalServerError
             errNextConsumerRespBody (Some e) (Name (config r))]
  end.
Proof.
  intros Hok. destruct o as [|ld n|code body err|ld n e]; cbn [outcomeWorld];
    [reflexivity|reflexivity| |].
  - destruct (Hok code body err eq_refl) as (Hlen & Hcode & Hbody).
    rewrite failRequest_logged by (right; assumption).
    unfold writeError. cbn [started span_do snd resp newWorld http.statusCode http.connErr
                            default logged app].
    rewrite Hbody. destruct (decide (body = "")), connErr; reflexivity.
  - rewrite failRequest_logged by (right; reflexivity). reflexivity.
Qed.

(** The access token: every batch handed to the consumer has one resource;
    with passthrough on and a non-empty token header that resource is
    initialised and carries the token under the token label and nothing
    else; with passthrough off, or without the header, the resource is left
    nil and without attributes. *)
Theorem access_token_passthrough (ld : pdata.Logs) :
  ld ∈ consumed (serve r req connErr) →
  batchResource ld =
  Some (if AccessTokenPassthrough (config r)
           && negb (String.eqb (http.Header_Get (Header req) SplunkHECTokenHeader) "")
        then {| pdata.IsNil := false;
                pdata.ResourceAttributes :=
                  {[ SplunkHecTokenLabel :=
                       pdata.AttributeValueSTRING
                         (http.Header_Get (Header req) SplunkHECTokenHeader) ]} |}
        else pdata.NewResource).
Proof.
  intros Hld.
  destruct (consumed_cases r req connErr) as [Hnone|(evs & _ & _ & _ & _ & _ & Hc & _)].
  { rewrite Hnone in Hld. apply elem_of_nil in Hld. contradiction. }
  rewrite Hc in Hld. apply list_elem_of_singleton in Hld. subst ld.
  unfold batchResource, newLogs. cbn.
  destruct (AccessTokenPassthrough (config r)); [|reflexivity].
  destruct (decide (_ ≠ "")) as [Hne|Heq]; cbn.
  - apply String.eqb_neq in Hne. rewrite Hne. reflexivity.
  - apply dec_stable in Heq. rewrite Heq. reflexivity.
Qed.

(** The receive operation is ended once for each batch handed to the
    consumer and not otherwise, and it is passed the number of log records
    of that batch as both count arguments ([numReceivedPoints] and
    [numReceivedTimeSeries]), with the consumer's error. *)
Theorem receive_op_counts_the_batch :
  receiveOpsEnded (serve r req connErr) =
  map (fun ld => (Z.of_nat (pdata.LogRecordCount ld), Z.of_nat (pdata.LogRecordCount ld),
                  logConsumer r ld))
      (consumed (serve r req connErr)).
Proof.
  destruct (handles_serve r req connErr) as (o & Ho & Heq).
  unfold receiveOpsEnded. rewrite (serve_span r req o connErr Ho).
  rewrite Heq, outcomeWorld_consumed.
  destruct Ho; try reflexivity; cbn -[pdata.LogRecordCount newLogs];
    rewrite newLogs_count, length_map; reflexivity.
Qed.

(** A gzip-encoded request whose body [gzip.NewReader] refuses is answered
    with 400 and the gzip-error body, whatever its declared length and its
    content; the consumer is not called, and the status set on the span is
    invalid-argument with the reader's error as message. *)
Theorem gzip_reader_error (e : error) :
  passesValidation req →
  http.Header_Get (Header req) httpContentEncodingHeader = gzipEncoding →
  NewReaderErr (Body req) = Some e →
  http.statusCode (resp (serve r req connErr)) = Some http.StatusBadRequest ∧
  http.written (resp (serve r req connErr)) = [errGzipReaderRespBody] ∧
  consumed (serve r req connErr) = [] ∧
  omap (fun op => match op with SetStatus st => Some st | _ => None end)
       (span (serve r req connErr))
    = [ {| trace.Code := trace.StatusCodeInvalidArgument; trace.Message := e |} ] ∧
  ∀ cl stream,
    serve r (withBody req cl {| NewReaderErr := Some e; Stream := stream |}) connErr
    = serve r req connErr.
Proof.
  intros Hv Hg He.
  pose proof (handles_gzip_error r req e Hv Hg He) as Ho.
  destruct (serve_response r req _ connErr Ho) as (Hs & Hw & Hc).
  split; [assumption|]. split; [assumption|]. split; [assumption|]. split.
  - rewrite (serve_span r req _ connErr Ho). reflexivity.
  - intros cl stream. rewrite (serve_outcome r req _ connErr Ho).
    apply serve_outcome, handles_gzip_error; [exact Hv|exact Hg|reflexivity].
Qed.

(** Every request is answered: the status is one of 200, 202, 400, 415 and
    500, exactly one body is written, and that body is the OK body exactly
    when the status is 200 or 202. *)
Theorem response_is_one_of_five :
  ∃ code body,
    http.statusCode (resp (serve r req connErr)) = Some code ∧
    http.written (resp (serve r req connErr)) = [body] ∧
    code ∈ [200; 202; 400; 415; 500] ∧
    (body = okRespBody ↔ code = 200 ∨ code = 202).
Proof.
  destruct (handles_serve r req connErr) as (o & Ho & _).
  destruct (serve_response r req o connErr Ho) as (Hs & Hw & _).
  eexists _, _. split; [exact Hs|]. split; [exact Hw|].
  destruct Ho; lazy beta iota;
    unfold http.StatusOK, http.StatusAccepted, http.StatusBadRequest,
      http.StatusUnsupportedMediaType, http.StatusInternalServerError;
    (split; [set_solver|]);
    (split; [intros Hb; try (vm_compute in Hb; discriminate); auto
            |intros [Hc|Hc]; try (vm_compute in Hc; discriminate); reflexivity]).
Qed.

(** Nothing is logged for a request answered with the OK body; every other
    request leaves one debug entry with the status and the body that were
    sent, preceded by one warning when the connection failed the write. *)
Theorem rejections_are_logged :
  (http.written (resp (serve r req connErr)) = [okRespBody] →
   logged (serve r req connErr) = []) ∧
  (http.written (resp (serve r req connErr)) ≠ [okRespBody] →
   ∃ code body err,
     http.statusCode (resp (serve r req connErr)) = Some code ∧
     http.written (resp (serve r req connErr)) = [body] ∧
     logged (serve r req connErr) =
       match connErr with
       | Some we => [Warn "Error writing HTTP response message" we (Name (config r))]
       | None => []
       end ++
       [Debug "Splunk HEC receiver request failed" code body err (Name (config r))]).
Proof.
  destruct (handles_serve r req connErr) as (o & Ho & Heq).
  destruct (serve_response r req o connErr Ho) as (Hs & Hw & _).
  rewrite Hw, Hs, Heq.
  rewrite outcomeWorld_logged
    by (intros code body err ->; eapply handles_rejection; eassumption).
  split.
  - intros Hb. destruct Ho; try reflexivity; vm_compute in Hb; discriminate.
  - intros Hb.
    destruct Ho; try (exfalso; apply Hb; reflexivity); eexists _, _, _;
      (split; [reflexivity|]); (split; [reflexivity|]);
      destruct connErr; reflexivity.
Qed.

(** [handleReq] returns for every request and on every response writer: no
    code it passes to [WriteHeader] makes it panic. *)
Theorem handleReq_never_panics (w : World) :
  handleReq r req w = (inl tt, snd (handleReq r req w)).
Proof.
  destruct (handleReq_outcome r req w) as (o & _ & Heq). rewrite Heq. reflexivity.
Qed.

(** A connection that fails the write changes nothing but the log: status,
    body, span and consumer calls are those of a healthy connection. *)
Theorem write_error_changes_only_the_log :
  http.statusCode (resp (serve r req connErr)) = http.statusCode (resp (serve r req None)) ∧
  http.written (resp (serve r req connErr)) = http.written (resp (serve r req None)) ∧
  span (serve r req connErr) = span (serve r req None) ∧
  consumed (serve r req connErr) = consumed (serve r req None).
Proof.
  destruct (handles_serve r req connErr) as (o & Ho & _).
  destruct (serve_response r req o connErr Ho) as (Hs & Hw & Hc).
  destruct (serve_response r req o None Ho) as (Hs' & Hw' & Hc').
  rewrite Hs, Hw, Hc, Hs', Hw', Hc'.
  rewrite !(serve_span r req o _ Ho). repeat split.
Qed.

End HandlerFurther.

Section HandlerPairs.
Context `{Externals}.
Variables (r : splunkReceiver) (req : Request) (connErr : option error).

Lemma valuesOf_values (vals : list DecodeResult) (tail : list StreamItem) :
  valuesOf (map NextValue vals ++ tail) = vals ++ valuesOf tail.
Proof. induction vals as [|d vals IH]; [reflexivity|]. cbn. rewrite IH. reflexivity. Qed.

(** A closing bracket or brace outside any value, or a read error where
    the decoder looks for the next value, ends the loop as the end of the
    body does: when all values before it are log events they are handed to
    the consumer as one batch, and the request is answered with 202 and
    the OK body when the consumer succeeds, whatever follows in the body. *)
Theorem stray_bracket_ends_the_body (evs : list Event) (item : StreamItem)
    (tail : list StreamItem) :
  passesValidation req → gzipReaderOk req → ContentLength req ≠ 0 →
  Stream (Body req) = map NextValue (map Decoded evs) ++ item :: tail →
  More (item :: tail) = false →
  Forall (fun ev => IsMetric ev = false) evs →
  consumed (serve r req connErr) = [newLogs r req (map eventToLogRecord evs)] ∧
  pdata.LogRecordCount (newLogs r req (map eventToLogRecord evs)) = length evs ∧
  (logConsumer r (newLogs r req (map eventToLogRecord evs)) = None →
   http.statusCode (resp (serve r req connErr)) = Some http.StatusAccepted ∧
   http.written (resp (serve r req connErr)) = [okRespBody]).
Proof.
  intros Hv Hgz Hcl Hs Hmore Hevs.
  assert (Hb : Values (Body req) = map Decoded evs).
  { unfold Values. rewrite Hs, valuesOf_values.
    destruct item; [discriminate| |]; cbn [valuesOf]; apply app_nil_r. }
  split; [|split].
  - destruct (logConsumer r (newLogs r req (map eventToLogRecord evs))) as [e|] eqn:Hc.
    + apply (serve_response r req _ connErr
               (handles_downstream_failed r req evs e Hv Hgz Hcl Hb Hevs Hc)).
    + apply (serve_response r req _ connErr
               (handles_accepted r req evs Hv Hgz Hcl Hb Hevs Hc)).
  - rewrite newLogs_count. apply length_map.
  - intros Hc.
    destruct (serve_response r req _ connErr
                (handles_accepted r req evs Hv Hgz Hcl Hb Hevs Hc)) as (Hst & Hw & _).
    split; assumption.
Qed.

(** The loop does not read past the first value that is not a log event:
    whatever follows it in the body, values, stray brackets or a read
    error, the world the request leaves is the same. *)
Theorem loop_stops_at_first_rejection (evs : list Event) (bad : DecodeResult)
    (rest : list DecodeResult) (tail' : list StreamItem) :
  passesValidation req → gzipReaderOk req → ContentLength req ≠ 0 →
  Values (Body req) = map Decoded evs ++ bad :: rest →
  Forall (fun ev => IsMetric ev = false) evs →
  ¬ isLogEvent bad →
  serve r (withBody req (ContentLength req)
             {| NewReaderErr := NewReaderErr (Body req);
                Stream := map NextValue (map Decoded evs ++ [bad]) ++ tail' |}) connErr
  = serve r req connErr.
Proof.
  intros Hv Hgz Hcl Hb Hevs Hbad.
  assert (Hb' : ∀ cl ne,
            Values (Body (withBody req cl
                            {| NewReaderErr := ne;
                               Stream := map NextValue (map Decoded evs ++ [bad]) ++ tail' |}))
            = map Decoded evs ++ bad :: valuesOf tail').
  { intros cl ne. unfold Values. cbn [Body withBody Stream].
    rewrite valuesOf_values, <- app_assoc. reflexivity. }
  destruct bad as [msg|e].
  - assert (Hm : IsMetric msg = true).
    { cbn in Hbad. destruct (IsMetric msg); [reflexivity|]. exfalso. apply Hbad. reflexivity. }
    rewrite (serve_outcome r req _ connErr
               (handles_metric r req evs msg rest Hv Hgz Hcl Hb Hevs Hm)).
    apply serve_outcome.
    apply (handles_metric r _ evs msg (valuesOf tail')); try assumption. apply Hb'.
  - rewrite (serve_outcome r req _ connErr
               (handles_malformed r req evs e rest Hv Hgz Hcl Hb Hevs)).
    apply serve_outcome.
    apply (handles_malformed r _ evs e (valuesOf tail')); try assumption. apply Hb'.
Qed.

Lemma newLogs_token (req2 : Request) (logSlice : pdata.LogSlice) :
  http.Header_Get (Header req) SplunkHECTokenHeader
    = http.Header_Get (Header req2) SplunkHECTokenHeader →
  newLogs r req logSlice = newLogs r req2 logSlice.
Proof. intros Ht. unfold newLogs. rewrite Ht. reflexivity. Qed.

(** Once the reader stands, the encoding plays no part: two requests past
    the header checks and the zero-length test whose readers yield the same
    values, gzip-encoded or not, and that carry the same access token,
    leave the same world, batch included. *)
Theorem encoding_does_not_change_the_answer (req2 : Request) :
  passesValidation req → passesValidation req2 →
  gzipReaderOk req → gzipReaderOk req2 →
  ContentLength req ≠ 0 → ContentLength req2 ≠ 0 →
  Values (Body req) = Values (Body req2) →
  http.Header_Get (Header req) SplunkHECTokenHeader
    = http.Header_Get (Header req2) SplunkHECTokenHeader →
  serve r req connErr = serve r req2 connErr.
Proof.
  intros Hv Hv2 Hgz Hgz2 Hcl Hcl2 Hvals Htok.
  destruct (body_split (Values (Body req)))
    as (evs & Hevs & [Hb|[(msg & rest & Hm & Hb)|(e & rest & Hb)]]).
  - pose proof (newLogs_token req2 (map eventToLogRecord evs) Htok) as Hld.
    assert (Hb2 : Values (Body req2) = map Decoded evs) by (rewrite <- Hvals; exact Hb).
    destruct (logConsumer r (newLogs r req (map eventToLogRecord evs))) as [e|] eqn:Hc.
    + rewrite (serve_outcome r req _ connErr
                 (handles_downstream_failed r req evs e Hv Hgz Hcl Hb Hevs Hc)).
      rewrite Hld in Hc |- *. symmetry.
      apply serve_outcome, handles_downstream_failed; assumption.
    + rewrite (serve_outcome r req _ connErr
                 (handles_accepted r req evs Hv Hgz Hcl Hb Hevs Hc)).
      rewrite Hld in Hc |- *. symmetry.
      apply serve_outcome, handles_accepted; assumption.
  - rewrite (serve_outcome r req _ connErr
               (handles_metric r req evs msg rest Hv Hgz Hcl Hb Hevs Hm)).
    symmetry. apply serve_outcome.
    apply (handles_metric r req2 evs msg rest); try assumption. rewrite <- Hvals. exact Hb.
  - rewrite (serve_outcome r req _ connErr
               (handles_malformed r req evs e rest Hv Hgz Hcl Hb Hevs)).
    symmetry. apply serve_outcome.
    apply (handles_malformed r req2 evs e rest); try assumption. rewrite <- Hvals. exact Hb.
Qed.

End HandlerPairs.

Lemma tokenPost_passes :
  passesValidation tokenPost ∧ gzipReaderOk tokenPost ∧ ContentLength tokenPost ≠ 0.
Proof.
  split; [|split].
  - split; [reflexivity|]. split; [reflexivity|]. left. reflexivity.
  - intros Hg. vm_compute in Hg. discriminate.
  - discriminate.
Defined.

Lemma gzipTwoLogsPost_passes :
  passesValidation gzipTwoLogsPost ∧ gzipReaderOk gzipTwoLogsPost ∧
  ContentLength gzipTwoLogsPost ≠ 0.
Proof.
  split; [|split].
  - split; [reflexivity|]. split; [reflexivity|]. right. reflexivity.
  - intros _. reflexivity.
  - discriminate.
Defined.

Lemma access_token_passthrough_witness :
  consumed (serve (H := exampleExternals) passthroughReceiver tokenPost None)
    = [newLogs (H := exampleExternals) passthroughReceiver tokenPost
         [eventToLogRecord (exampleEvent (RString "started"));
          eventToLogRecord (exampleEvent (RString "stopped"))]] ∧
  batchResource
    (newLogs (H := exampleExternals) passthroughReceiver tokenPost
       [eventToLogRecord (exampleEvent (RString "started"));
        eventToLogRecord (exampleEvent (RString "stopped"))])
  = Some {| pdata.IsNil := false;
            pdata.ResourceAttributes :=
              {[ "com.splunk.hec.access_token" :=
                   pdata.AttributeValueSTRING "00000000-0000-0000-0000-000000000000" ]} |}.
Proof.
  destruct tokenPost_passes as (Hv & Hgz & Hcl).
  assert (Hone : consumed (serve (H := exampleExternals) passthroughReceiver tokenPost None)
                 = [newLogs (H := exampleExternals) passthroughReceiver tokenPost
                      [eventToLogRecord (exampleEvent (RString "started"));
                       eventToLogRecord (exampleEvent (RString "stopped"))]]).
  { apply (serve_response (H := exampleExternals) passthroughReceiver tokenPost _ None
             (handles_accepted (H := exampleExternals) passthroughReceiver tokenPost
                [exampleEvent (RString "started"); exampleEvent (RString "stopped")]
                Hv Hgz Hcl eq_refl
                ltac:(repeat constructor) eq_refl)). }
  split; [exact Hone|].
  exact (@access_token_passthrough exampleExternals passthroughReceiver tokenPost None _
           (eq_ind_r (fun l => _ ∈ l) (list_elem_of_here _ _) Hone)).
Defined.

Lemma gzip_reader_error_witness :
  http.statusCode (resp (serve (H := exampleExternals) acceptingReceiver notGzipPost None))
    = Some 400 ∧
  http.written (resp (serve (H := exampleExternals) acceptingReceiver notGzipPost None))
    = [errGzipReaderRespBody] ∧
  consumed (serve (H := exampleExternals) acceptingReceiver notGzipPost None) = [].
Proof.
  destruct (@gzip_reader_error exampleExternals acceptingReceiver notGzipPost None
              "gzip: invalid header") as (Hs & Hw & Hc & _).
  - split; [reflexivity|]. split; [reflexivity|]. right. reflexivity.
  - reflexivity.
  - reflexivity.
  - split; [exact Hs|]. split; [exact Hw|exact Hc].
Defined.

Lemma rejections_are_logged_witness :
  logged (serve (H := exampleExternals) acceptingReceiver twoLogsPost (Some "broken pipe")) = [] ∧
  ∃ code body err,
    logged (serve (H := exampleExternals) acceptingReceiver textPlainPost (Some "broken pipe"))
    = [Warn "Error writing HTTP response message" "broken pipe" "splunk_hec";
       Debug "Splunk HEC receiver request failed" code body err "splunk_hec"].
Proof.
  split.
  - apply (proj1 (@rejections_are_logged exampleExternals acceptingReceiver twoLogsPost
                    (Some "broken pipe"))).
    vm_compute. reflexivity.
  - destruct (proj2 (@rejections_are_logged exampleExternals acceptingReceiver textPlainPost
                       (Some "broken pipe"))) as (code & body & err & _ & _ & Hl).
    + vm_compute. discriminate.
    + exists code, body, err. exact Hl.
Defined.

Lemma stray_bracket_ends_the_body_witness :
  consumed (serve (H := exampleExternals) acceptingReceiver strayBracketPost None)
    = [newLogs (H := exampleExternals) acceptingReceiver strayBracketPost
         [eventToLogRecord (exampleEvent (RString "started"))]] ∧
  http.statusCode (resp (serve (H := exampleExternals) acceptingReceiver strayBracketPost None))
    = Some 202 ∧
  http.written (resp (serve (H := exampleExternals) acceptingReceiver strayBracketPost None))
    = [okRespBody].
Proof.
  destruct (chunkedPost_passes []) as (Hv & Hgz & Hcl).
  destruct (@stray_bracket_ends_the_body exampleExternals acceptingReceiver strayBracketPost
              None [exampleEvent (RString "started")] (Closing CloseBracket)
              [NextValue (DecodeErr "invalid character 'n' looking for beginning of object key string")]
              Hv Hgz Hcl eq_refl eq_refl ltac:(repeat constructor)) as (Hc & _ & Hok).
  destruct (Hok eq_refl) as (Hs & Hw).
  split; [exact Hc|]. split; [exact Hs|exact Hw].
Defined.

Lemma loop_stops_at_first_rejection_witness :
  serve (H := exampleExternals) acceptingReceiver
    (withBody logThenMetricPost (-1)
       {| NewReaderErr := Some "gzip: invalid header";
          Stream := [NextValue (Decoded (exampleEvent (RString "started")));
                     NextValue (Decoded (exampleEvent (RString "metric")));
                     Closing CloseBracket;
                     NextValue (Decoded (exampleEvent (RString "stopped")))] |}) None
  = serve (H := exampleExternals) acceptingReceiver logThenMetricPost None.
Proof.
  destruct (chunkedPost_passes (Values (Body logThenMetricPost))) as (Hv & Hgz & Hcl).
  apply (@loop_stops_at_first_rejection exampleExternals acceptingReceiver logThenMetricPost
           None [exampleEvent (RString "started")]
           (Decoded (exampleEvent (RString "metric"))) [DecodeErr "unexpected EOF"]
           [Closing CloseBracket; NextValue (Decoded (exampleEvent (RString "stopped")))]
           Hv Hgz Hcl eq_refl).
  - repeat constructor.
  - intros Hlog. discriminate Hlog.
Defined.

Lemma encoding_does_not_change_the_answer_witness :
  serve (H := exampleExternals) acceptingReceiver twoLogsPost None
  = serve (H := exampleExternals) acceptingReceiver gzipTwoLogsPost None.
Proof.
  destruct (chunkedPost_passes (Values (Body twoLogsPost))) as (Hv & Hgz & Hcl).
  destruct gzipTwoLogsPost_passes as (Hv2 & Hgz2 & Hcl2).
  exact (@encoding_does_not_change_the_answer exampleExternals acceptingReceiver twoLogsPost
           None gzipTwoLogsPost Hv Hv2 Hgz Hgz2 Hcl Hcl2 eq_refl eq_refl).
Defined.

(** * The metrics builder of the Couchbase receiver *)

Lemma EmitForResource_unchanged (mb : metadata.MetricsBuilder)
    (ro : list metadata.ResourceOption) :
  metadata.EmitForResource mb ro = Some mb.
Proof. reflexivity. Qed.

Lemma last_cons_default (x : Z) (l : list Z) (d d' : Z) :
  List.last (x :: l) d = List.last (x :: l) d'.
Proof.
  revert x. induction l as [|y l IH]; intros x; [reflexivity|].
  change (List.last (y :: l) d = List.last (y :: l) d'). apply IH.
Qed.

Lemma start_options_fold (starts : list Z) (mb : metadata.MetricsBuilder) :
  foldl (fun mb op => op mb) mb (map metadata.WithStartTime starts) =
  {| metadata.startTime := List.last starts (metadata.startTime mb);
     metadata.metricsCapacity := metadata.metricsCapacity mb;
     metadata.resourceCapacity := metadata.resourceCapacity mb;
     metadata.metricsBuffer := metadata.metricsBuffer mb |}.
Proof.
  revert mb. induction starts as [|t starts IH]; intros mb.
  - destruct mb; reflexivity.
  - cbn [map foldl]. rewrite IH. cbn [metadata.WithStartTime metadata.startTime
      metadata.metricsCapacity metadata.resourceCapacity metadata.metricsBuffer].
    f_equal. destruct starts as [|z starts]; [reflexivity|].
    change (List.last (z :: starts) t = List.last (z :: starts) (metadata.startTime mb)).
    apply last_cons_default.
Qed.

(** [Emit] returns what the buffer holds, whatever the resource options
    are, and leaves the buffer empty without touching the start time or
    the capacities; an [Emit] right after it returns no metrics. *)
Theorem Emit_returns_buffer_and_empties (mb : metadata.MetricsBuilder)
    (ro : list metadata.ResourceOption) :
  ∃ mb', metadata.Emit mb ro = Some (metadata.metricsBuffer mb, mb') ∧
         metadata.metricsBuffer mb' = [] ∧
         metadata.startTime mb' = metadata.startTime mb ∧
         metadata.metricsCapacity mb' = metadata.metricsCapacity mb ∧
         metadata.resourceCapacity mb' = metadata.resourceCapacity mb ∧
         ∀ ro', metadata.Emit mb' ro' = Some ([], mb').
Proof.
  eexists. split; [reflexivity|]. repeat split.
Qed.

(** The start time of a new or reset builder is the one of the last
    start-time option, and the current time when there is none; [Reset]
    keeps the buffer and the capacities. *)
Theorem start_time_is_last_option (settings : metadata.MetricsSettings) (now : Z)
    (starts : list Z) (mb : metadata.MetricsBuilder) :
  metadata.startTime
    (metadata.NewMetricsBuilder settings now (map metadata.WithStartTime starts))
    = List.last starts now ∧
  metadata.startTime (metadata.Reset mb now (map metadata.WithStartTime starts))
    = List.last starts now ∧
  metadata.metricsBuffer (metadata.Reset mb now (map metadata.WithStartTime starts))
    = metadata.metricsBuffer mb ∧
  metadata.metricsCapacity (metadata.Reset mb now (map metadata.WithStartTime starts))
    = metadata.metricsCapacity mb ∧
  metadata.resourceCapacity (metadata.Reset mb now (map metadata.WithStartTime starts))
    = metadata.resourceCapacity mb.
Proof.
  unfold metadata.NewMetricsBuilder, metadata.Reset. cbn zeta.
  rewrite !start_options_fold. repeat split.
Qed.

(** Whatever a scraper calls on a new builder, with whatever resource and
    start-time options, no call panics, every [Emit] returns no metrics,
    the buffer stays empty and the two capacities stay 0. *)
Theorem builder_never_emits (settings : metadata.MetricsSettings) (now : Z) (starts : list Z)
    (cs : list metadata.Call) :
  ∃ mb outs,
    metadata.calls
      (metadata.NewMetricsBuilder settings now (map metadata.WithStartTime starts)) cs
      = Some (mb, outs) ∧
    Forall (fun metrics => metrics = []) outs ∧
    metadata.metricsBuffer mb = [] ∧
    metadata.metricsCapacity mb = 0 ∧
    metadata.resourceCapacity mb = 0.
Proof.
  unfold metadata.NewMetricsBuilder. cbn zeta. rewrite start_options_fold. cbn.
  generalize (List.last starts now) as t. revert cs.
  induction cs as [|c cs IH]; intros t.
  - eexists _, _. split; [reflexivity|]. repeat split. constructor.
  - destruct c as [ro|ro|now' starts'].
    + destruct (IH t) as (mb & outs & Hc & Ho & Hb & Hm & Hr).
      exists mb, outs. split; [|repeat split; assumption].
      cbn [metadata.calls metadata.call]. rewrite EmitForResource_unchanged, Hc. reflexivity.
    + destruct (IH t) as (mb & outs & Hc & Ho & Hb & Hm & Hr).
      exists mb, ([] :: outs). split; [|repeat split; try assumption; constructor; auto].
      cbn [metadata.calls metadata.call]. unfold metadata.Emit.
      rewrite EmitForResource_unchanged. cbn. rewrite Hc. reflexivity.
    + destruct (IH (List.last starts' now')) as (mb & outs & Hc & Ho & Hb & Hm & Hr).
      exists mb, outs. split; [|repeat split; assumption].
      cbn [metadata.calls metadata.call]. unfold metadata.Reset. cbn zeta.
      rewrite start_options_fold. cbn. rewrite Hc. reflexivity.
Qed.

(** [updateCapacity] panics exactly on a resource without scope; otherwise
    it raises each capacity to the size it sees when that is larger and
    never lowers it, keeps start time and buffer, and changes nothing when
    repeated. *)
Theorem updateCapacity_keeps_maxima (mb : metadata.MetricsBuilder)
    (rm : metadata.ResourceMetrics) :
  (metadata.updateCapacity mb rm = None ↔ metadata.rm_ScopeMetrics rm = []) ∧
  ∀ mb', metadata.updateCapacity mb rm = Some mb' →
    ∃ sm, metadata.rm_ScopeMetrics rm !! 0%nat = Some sm ∧
      metadata.metricsCapacity mb'
        = Z.max (metadata.metricsCapacity mb) (Z.of_nat (length (metadata.Metrics sm))) ∧
      metadata.resourceCapacity mb'
        = Z.max (metadata.resourceCapacity mb)
                (Z.of_nat (size (metadata.Attributes (metadata.rm_Resource rm)))) ∧
      metadata.startTime mb' = metadata.startTime mb ∧
      metadata.metricsBuffer mb' = metadata.metricsBuffer mb ∧
      metadata.updateCapacity mb' rm = Some mb'.
Proof.
  unfold metadata.updateCapacity.
  destruct (metadata.rm_ScopeMetrics rm) as [|sm sms] eqn:Hs; cbn.
  - split; [split; reflexivity|]. intros mb' [=].
  - split; [split; discriminate|]. intros mb' [= <-].
    exists sm. split; [reflexivity|].
    destruct mb as [st mc rc buf]. cbn.
    set (lm := Z.of_nat (length (metadata.Metrics sm))).
    set (ls := Z.of_nat (size (metadata.Attributes (metadata.rm_Resource rm)))).
    destruct (mc <? lm) eqn:E1; destruct (rc <? ls) eqn:E2; cbn;
      rewrite ?E1, ?E2, ?Z.ltb_irrefl; cbn; rewrite ?E1, ?E2, ?Z.ltb_irrefl;
      first [apply Z.ltb_lt in E1|apply Z.ltb_ge in E1];
      first [apply Z.ltb_lt in E2|apply Z.ltb_ge in E2];
      repeat split; try lia;
      cbn;
      repeat match goal with
             | |- context [(?a <? ?b)] => destruct (Z.ltb_spec a b); try lia
             end;
      reflexivity.
Qed.

Lemma updateCapacity_keeps_maxima_witness :
  metadata.updateCapacity
    {| metadata.startTime := 1; metadata.metricsCapacity := 5;
       metadata.resourceCapacity := 0; metadata.metricsBuffer := [] |}
    {| metadata.rm_Resource := {| metadata.Attributes := {[ "bucket" := ValueStr "beer" ]} |};
       metadata.rm_ScopeMetrics :=
         [ {| metadata.ScopeName := "otelcol/couchbasereceiver";
              metadata.Metrics := [ {| metadata.MetricName := "ops" |} ] |} ] |}
  = Some {| metadata.startTime := 1; metadata.metricsCapacity := 5;
            metadata.resourceCapacity := 1; metadata.metricsBuffer := [] |} ∧
  ∃ sm, metadata.Metrics sm = [ {| metadata.MetricName := "ops" |} ].
Proof.
  split; [reflexivity|].
  destruct (proj2 (updateCapacity_keeps_maxima
                     {| metadata.startTime := 1; metadata.metricsCapacity := 5;
                        metadata.resourceCapacity := 0; metadata.metricsBuffer := [] |}
                     {| metadata.rm_Resource :=
                          {| metadata.Attributes := {[ "bucket" := ValueStr "beer" ]} |};
                        metadata.rm_ScopeMetrics :=
                          [ {| metadata.ScopeName := "otelcol/couchbasereceiver";
                               metadata.Metrics := [ {| metadata.MetricName := "ops" |} ] |} ] |})
              _ eq_refl) as (sm & Hsm & _).
  exists sm. injection Hsm as <-. reflexivity.
Defined.

(** * The websocket processor *)

(** A processor that [newProcessor] returns is registered under its
    configuration; every later call for that configuration returns the
    same processor, whatever settings it is given and without asking for a
    new [obsreport] processor, and leaves the registry as it is; the
    entries of other configurations are not touched. *)
Theorem newProcessor_is_cached
    (processors processors' : gmap positive websocketprocessor.wsprocessor)
    (NewProcessor : string → websocketprocessor.ObsProcessor + error)
    (settings : websocketprocessor.CreateSettings) (config : positive)
    (p : websocketprocessor.wsprocessor) :
  websocketprocessor.newProcessor processors NewProcessor settings config
    = (processors', (Some p, None)) →
  processors' !! config = Some p ∧
  (∀ NewProcessor' settings',
     websocketprocessor.newProcessor processors' NewProcessor' settings' config
     = (processors', (Some p, None))) ∧
  (∀ other, other ≠ config → processors' !! other = processors !! other).
Proof.
  unfold websocketprocessor.newProcessor.
  destruct (processors !! config) as [q|] eqn:Hq.
  - intros [= <- <-]. split; [assumption|]. split; [|reflexivity].
    intros NP' s'. rewrite Hq. reflexivity.
  - destruct (NewProcessor _) as [obs|err]; [|discriminate].
    intros [= <- <-]. split; [apply lookup_insert_eq|]. split.
    + intros NP' s'. rewrite lookup_insert_eq. reflexivity.
    + intros other Hne. apply lookup_insert_ne. congruence.
Qed.

Lemma newProcessor_is_cached_witness :
  websocketprocessor.newProcessor ∅
    (fun id => inl {| websocketprocessor.ProcessorID := id |})
    {| websocketprocessor.ID := "websocket"; websocketprocessor.TelemetrySettings := "t1" |}
    7%positive
  = ({[ 7%positive := exampleProcessor ]}, (Some exampleProcessor, None)) ∧
  websocketprocessor.newProcessor {[ 7%positive := exampleProcessor ]}
    (fun _ => inr "no meter provider")
    {| websocketprocessor.ID := "websocket/2"; websocketprocessor.TelemetrySettings := "t2" |}
    7%positive
  = ({[ 7%positive := exampleProcessor ]}, (Some exampleProcessor, None)).
Proof.
  assert (Hnew : websocketprocessor.newProcessor ∅
                   (fun id => inl {| websocketprocessor.ProcessorID := id |})
                   {| websocketprocessor.ID := "websocket";
                      websocketprocessor.TelemetrySettings := "t1" |}
                   7%positive
                 = ({[ 7%positive := exampleProcessor ]}, (Some exampleProcessor, None)))
    by reflexivity.
  split; [exact Hnew|].
  apply (proj1 (proj2 (newProcessor_is_cached _ _ _ _ _ _ Hnew))).
Defined.

(** When [newProcessor] returns an error, the configuration was not
    registered, the error is the one of [obsreport.NewProcessor], no
    processor is returned and the registry is unchanged. *)
Theorem newProcessor_error_registers_nothing
    (processors processors' : gmap positive websocketprocessor.wsprocessor)
    (NewProcessor : string → websocketprocessor.ObsProcessor + error)
    (settings : websocketprocessor.CreateSettings) (config : positive)
    (res : option websocketprocessor.wsprocessor) (e : error) :
  websocketprocessor.newProcessor processors NewProcessor settings config
    = (processors', (res, Some e)) →
  res = None ∧ processors' = processors ∧ processors !! config = None ∧
  NewProcessor (websocketprocessor.ID settings) = inr e.
Proof.
  unfold websocketprocessor.newProcessor.
  destruct (processors !! config) as [q|] eqn:Hq; [discriminate|].
  destruct (NewProcessor _) as [obs|err]; [discriminate|].
  intros [= <- <- <-]. repeat split.
Qed.

Lemma newProcessor_error_registers_nothing_witness :
  websocketprocessor.newProcessor ∅ (fun _ => inr "no meter provider")
    {| websocketprocessor.ID := "websocket"; websocketprocessor.TelemetrySettings := "t1" |}
    7%positive
  = (∅, (None, Some "no meter provider")) ∧
  (∅ : gmap positive websocketprocessor.wsprocessor) !! 7%positive = None.
Proof.
  assert (Herr : websocketprocessor.newProcessor ∅ (fun _ => inr "no meter provider")
                   {| websocketprocessor.ID := "websocket";
                      websocketprocessor.TelemetrySettings := "t1" |}
                   7%positive
                 = (∅, (None, Some "no meter provider"))) by reflexivity.
  split; [exact Herr|].
  exact (proj1 (proj2 (proj2 (newProcessor_error_registers_nothing _ _ _ _ _ _ _ Herr)))).
Defined.

(** The loop of a connection: the messages handed to [conn.Write] are a
    prefix of the received ones and none of them is empty; the loop is left
    exactly when an empty message (a closed channel) or a failed write is
    among the received values, and then nothing received later is written;
    while it is not left every received message has been written. *)
Lemma connLoop_prefix (received : list (string * option error)) :
  fst (websocketprocessor.connLoop received) `prefix_of` map fst received ∧
  Forall (fun msg => msg ≠ "") (fst (websocketprocessor.connLoop received)) ∧
  (snd (websocketprocessor.connLoop received) = true ↔
   Exists (fun me => fst me = "" ∨ snd me ≠ None) received) ∧
  (snd (websocketprocessor.connLoop received) = false →
   fst (websocketprocessor.connLoop received) = map fst received).
Proof.
  induction received as [|[msg werr] rest (IHp & IHn & IHl & IHa)];
    cbn [websocketprocessor.connLoop map fst snd].
  - split; [reflexivity|]. split; [constructor|]. split; [|reflexivity].
    split; [discriminate|]. intros Hex. inversion Hex.
  - destruct msg as [|c msg]; cbn [String.length Nat.eqb].
    + split; [apply prefix_nil|]. split; [constructor|]. split; [|discriminate].
      split; [|reflexivity]. intros _. apply Exists_cons_hd. left. reflexivity.
    + destruct werr as [e|]; cbn [fst snd].
      * split; [apply prefix_cons, prefix_nil|]. split; [repeat constructor; discriminate|].
        split; [|discriminate]. split; [|reflexivity].
        intros _. apply Exists_cons_hd. right. discriminate.
      * destruct (websocketprocessor.connLoop rest) as [ws over]; cbn [fst snd] in *.
        split; [apply prefix_cons; assumption|].
        split; [constructor; [discriminate|assumption]|]. split.
        -- rewrite IHl. split; [intros Hex; apply Exists_cons_tl; assumption|].
           intros Hex. apply Exists_cons in Hex as [[Hm|He]|Hex];
             [discriminate|contradiction|assumption].
        -- intros Hov. f_equal. apply IHa. assumption.
Qed.

(** Up to the first received value that is empty or whose write fails the
    loop writes every message; it writes that value too when it is not
    empty, and is left there: nothing received later is looked at. *)
Lemma connLoop_stops (pre post : list (string * option error)) (me : string * option error) :
  Forall (fun me => fst me ≠ "" ∧ snd me = None) pre →
  fst me = "" ∨ snd me ≠ None →
  websocketprocessor.connLoop (pre ++ me :: post)
  = (map fst pre ++ (if decide (fst me = "") then [] else [fst me]), true).
Proof.
  intros Hpre Hstop. induction Hpre as [|[msg werr] pre [Hmsg Hw] _ IH].
  - destruct me as [msg werr]. cbn [app map fst snd websocketprocessor.connLoop] in *.
    destruct msg as [|c msg]; [reflexivity|]. cbn [String.length Nat.eqb].
    destruct (decide (String c msg = "")); [discriminate|].
    destruct werr as [e|]; [reflexivity|]. destruct Hstop; [discriminate|contradiction].
  - cbn [fst snd] in Hmsg, Hw. subst werr.
    cbn [app map fst websocketprocessor.connLoop]. rewrite IH.
    destruct msg as [|c msg]; [contradiction|]. reflexivity.
Qed.

(** Without such a value every received message is written and the loop
    waits for the next one. *)
Lemma connLoop_waits (received : list (string * option error)) :
  Forall (fun me => fst me ≠ "" ∧ snd me = None) received →
  websocketprocessor.connLoop received = (map fst received, false).
Proof.
  intros Hall. induction Hall as [|[msg werr] rest [Hmsg Hw] _ IH]; [reflexivity|].
  cbn [fst snd] in Hmsg, Hw. subst werr.
  cbn [map fst websocketprocessor.connLoop]. rewrite IH.
  destruct msg as [|c msg]; [contradiction|]. reflexivity.
Qed.

(** The received values either all are written, or split at the first one
    that is empty or whose write fails. *)
Lemma received_split (received : list (string * option error)) :
  Forall (fun me => fst me ≠ "" ∧ snd me = None) received ∨
  ∃ pre me post, received = pre ++ me :: post ∧
                 Forall (fun me => fst me ≠ "" ∧ snd me = None) pre ∧
                 (fst me = "" ∨ snd me ≠ None).
Proof.
  induction received as [|[msg werr] rest IH]; [left; constructor|].
  destruct (decide (msg = "")) as [Hm|Hm].
  { right. exists [], (msg, werr), rest. split; [reflexivity|]. split; [constructor|].
    left. exact Hm. }
  destruct werr as [e|].
  { right. exists [], (msg, Some e), rest. split; [reflexivity|]. split; [constructor|].
    right. discriminate. }
  destruct IH as [Hall|(pre & me & post & -> & Hpre & Hstop)].
  - left. constructor; [split; [exact Hm|reflexivity]|exact Hall].
  - right. exists ((msg, None) :: pre), me, post. split; [reflexivity|].
    split; [constructor; [split; [exact Hm|reflexivity]|exact Hpre]|exact Hstop].
Qed.

(** [handleConn]: when the deadline cannot be set nothing is registered or
    written and the handler returns.  Otherwise the connection is
    registered under its key, and then: up to the first received value
    that is empty (a closed channel) or whose write fails, every message
    is handed to [conn.Write] in order; that value is handed to it too
    unless it is empty; nothing received after it is written; the key is
    unregistered as the last action and the handler returns.  When no
    received value is empty or fails, all of them are written, the key
    stays registered and the handler has not returned. *)
Theorem handleConn_registers_writes_unregisters (key : string) (sendChan : nat)
    (received : list (string * option error)) (e : error) :
  websocketprocessor.handleConn (Some e) key sendChan received
    = ([websocketprocessor.LogDebug "Error setting deadline" e], true) ∧
  (∀ pre me post,
     received = pre ++ me :: post →
     Forall (fun me => fst me ≠ "" ∧ snd me = None) pre →
     fst me = "" ∨ snd me ≠ None →
     websocketprocessor.handleConn None key sendChan received
     = (websocketprocessor.Register key sendChan ::
          map websocketprocessor.WriteMsg
              (map fst pre ++ (if decide (fst me = "") then [] else [fst me])) ++
          [websocketprocessor.Unregister key],
        true)) ∧
  (Forall (fun me => fst me ≠ "" ∧ snd me = None) received →
   websocketprocessor.handleConn None key sendChan received
   = (websocketprocessor.Register key sendChan ::
        map websocketprocessor.WriteMsg (map fst received),
      false)).
Proof.
  split; [reflexivity|]. split.
  - intros pre me post -> Hpre Hstop. unfold websocketprocessor.handleConn.
    rewrite (connLoop_stops pre post me Hpre Hstop). reflexivity.
  - intros Hall. unfold websocketprocessor.handleConn.
    rewrite (connLoop_waits received Hall). rewrite app_nil_r. reflexivity.
Qed.

Lemma handleConn_registers_writes_unregisters_witness :
  websocketprocessor.handleConn None "/" 1%nat
    [("a", None); ("b", Some "broken pipe"); ("c", None)]
  = ([websocketprocessor.Register "/" 1%nat; websocketprocessor.WriteMsg "a";
      websocketprocessor.WriteMsg "b"; websocketprocessor.Unregister "/"], true) ∧
  websocketprocessor.handleConn None "/" 1%nat [("a", None); ("", None); ("c", None)]
  = ([websocketprocessor.Register "/" 1%nat; websocketprocessor.WriteMsg "a";
      websocketprocessor.Unregister "/"], true) ∧
  websocketprocessor.handleConn None "/" 1%nat [("a", None); ("c", None)]
  = ([websocketprocessor.Register "/" 1%nat; websocketprocessor.WriteMsg "a";
      websocketprocessor.WriteMsg "c"], false).
Proof.
  split; [|split].
  - apply (proj1 (proj2 (handleConn_registers_writes_unregisters "/" 1%nat
                           [("a", None); ("b", Some "broken pipe"); ("c", None)] "EOF"))
             [("a", None)] ("b", Some "broken pipe") [("c", None)] eq_refl).
    + repeat constructor; discriminate.
    + right. discriminate.
  - apply (proj1 (proj2 (handleConn_registers_writes_unregisters "/" 1%nat
                           [("a", None); ("", None); ("c", None)] "EOF"))
             [("a", None)] ("", None) [("c", None)] eq_refl).
    + repeat constructor; discriminate.
    + left. reflexivity.
  - apply (proj2 (proj2 (handleConn_registers_writes_unregisters "/" 1%nat
                           [("a", None); ("c", None)] "EOF"))).
    repeat constructor; discriminate.
Defined.

(** Two connections with the same request URI: when the first one ends
    after the second has registered, the key is gone from the registry
    although the second is still served, and a payload sent to the
    connections does not reach the second one's channel. *)
Theorem same_key_connection_is_dropped (conns : gmap string nat) (key : string)
    (first second : nat) (payload : string) :
  (∀ k, conns !! k ≠ Some second) →
  foldl websocketprocessor.applyAction conns
    [websocketprocessor.Register key first; websocketprocessor.Register key second;
     websocketprocessor.Unregister key] !! key = None ∧
  ¬ In (second, payload)
      (websocketprocessor.sendToConnections
         (foldl websocketprocessor.applyAction conns
            [websocketprocessor.Register key first; websocketprocessor.Register key second;
             websocketprocessor.Unregister key])
         payload).
Proof.
  intros Hfresh. cbn [foldl websocketprocessor.applyAction].
  split; [apply lookup_delete_eq|].
  unfold websocketprocessor.sendToConnections. intros Hin.
  apply in_map_iff in Hin as ([k c] & Heq & Hin). cbn in Heq. injection Heq as ->.
  apply list_elem_of_In, elem_of_map_to_list in Hin.
  destruct (decide (k = key)) as [->|Hne].
  - rewrite lookup_delete_eq in Hin. discriminate.
  - rewrite lookup_delete_ne, !lookup_insert_ne in Hin by congruence.
    exact (Hfresh k Hin).
Qed.

Lemma same_key_connection_is_dropped_witness :
  websocketprocessor.sendToConnections
    (foldl websocketprocessor.applyAction {[ "/logs" := 1%nat ]}
       [websocketprocessor.Register "/" 2%nat; websocketprocessor.Register "/" 3%nat;
        websocketprocessor.Unregister "/"])
    "{}"
  = [(1%nat, "{}")] ∧
  ¬ In (3%nat, "{}")
      (websocketprocessor.sendToConnections
         (foldl websocketprocessor.applyAction {[ "/logs" := 1%nat ]}
            [websocketprocessor.Register "/" 2%nat; websocketprocessor.Register "/" 3%nat;
             websocketprocessor.Unregister "/"])
         "{}").
Proof.
  split; [vm_compute; reflexivity|].
  apply (same_key_connection_is_dropped {[ "/logs" := 1%nat ]} "/" 2%nat 3%nat "{}").
  intros k Hk. apply lookup_singleton_Some in Hk as [_ Hk]. discriminate.
Defined.
